(** * Crossley Gate Monitor: the [read_gate] loop of main.py

    The monitor samples an optocoupler every tenth of a second, sums up how
    long the gate motor's LED was lit during a listening window, classifies
    that duration against a table of statuses and decides whether to send a
    notification.

    Embedding.
    - Python floats are IEEE 754 binary64 numbers ([PrimFloat]); the
      constants [0.1], [-0.1], [5] and the bands of [gate_status_time] are
      the literals of the source, and [+], [<], [<=], [==] are the
      floating-point operations.  The counters start as the int [0], which
      compares and adds as the float [0].  Builds of MicroPython with
      single-precision floats are not modelled.
    - Statuses, flags and waiting times are Python ints ([Z]); lists are
      indexed as Python indexes them, a bad index raising [IndexError].
    - [time.time()] is read in whole seconds ([Z]); every read is an input
      of the model.
    - [gate_input_gpio_pin.value()] is an input stream [nat -> bool], one
      element per read.
    - [notify] is recorded as the list of messages handed to it; the LED
      flashes and the [print] calls leave no trace in the model beyond the
      table lookups they perform. *)

From Stdlib Require Import ZArith List String Bool Lia PeanoNat.
From Stdlib Require Import Floats.PrimFloat.
Import ListNotations.

#[local] Set Warnings "-inexact-float".
#[local] Open Scope Z_scope.

(** ** Python values *)

(** What a run of Python code comes to: a value, an [IndexError], or a loop
    that is still running when the fuel of the model is used up. *)
Inductive result (A : Type) : Type :=
| Ok (a : A)
| IndexError
| Fuel.

Arguments Ok {A} a.
Arguments IndexError {A}.
Arguments Fuel {A}.

Definition bind {A B : Type} (r : result A) (k : A -> result B) : result B :=
  match r with
  | Ok a => k a
  | IndexError => IndexError
  | Fuel => Fuel
  end.

Notation "x <- r ;; k" := (bind r (fun x => k))
  (at level 61, r at next level, right associativity).
Notation "' p <- r ;; k" := (bind r (fun x => let p := x in k))
  (at level 61, p pattern, r at next level, right associativity).

(** [l[i]]: indexes from [-len(l)] to [len(l) - 1] are valid, the negative
    ones counting from the end. *)
Definition index {A : Type} (l : list A) (i : Z) : result A :=
  let n := Z.of_nat (List.length l) in
  let j := if i <? 0 then n + i else i in
  if (0 <=? j) && (j <? n) then
    match nth_error l (Z.to_nat j) with
    | Some a => Ok a
    | None => IndexError
    end
  else IndexError.

(** The truth value of an int in [if x:]. *)
Definition truthy (x : Z) : bool := negb (x =? 0).

(** ** The configuration tables of [read_gate] *)

Record tables : Type := {
  gate_status_options : list Z;
  gate_status_string : list string;
  gate_status_string_repeat : list string;
  gate_status_time : list (float * float);
  gate_status_report : list Z;
  gate_status_wait : list Z;
  gate_status_confirm : list Z
}.

(** The tables as main.py sets them (lines 129-147). *)
Definition crossley : tables := {|
  gate_status_options := [0; 1; 2];
  gate_status_string :=
    ["Gate closed"; "Gate OPEN"; "Gate has an AC power or battery failure"]%string;
  gate_status_string_repeat :=
    ["Gate closed"; "Gate still OPEN"; "Gate has an AC power or battery failure"]%string;
  gate_status_time := [(0, 0); (2, 6); (0.5, 1.5)]%float;
  gate_status_report := [0; 1; 1];
  gate_status_wait := [0; 300; 1800];
  gate_status_confirm := [1; 0; 1]
|}.

(** ** Listening: the inner [while time_count < 5] loop (lines 157-177) *)

Record window : Type := {
  time_count : float;
  led_on_count : float
}.

(** Lines 157-158. *)
Definition fresh : window := {| time_count := 0; led_on_count := 0 |}.

(** The loop condition, line 160. *)
Definition listening (w : window) : bool := (time_count w <? 5)%float.

(** The test of line 166. *)
Definition restart (w : window) : bool :=
  ((0 <? time_count w) && (led_on_count w =? 0))%float.

(** Lines 162-175 of the loop body, [pin] being what
    [gate_input_gpio_pin.value()] returned. *)
Definition sense (pin : bool) (w : window) : window :=
  if pin then
    if restart w then
      {| time_count := (-0.1)%float; led_on_count := led_on_count w |}
    else
      {| time_count := time_count w;
         led_on_count := (led_on_count w + 0.1)%float |}
  else w.

(** One pass through the loop body (lines 161-177). *)
Definition tick (pin : bool) (w : window) : window :=
  let w1 := sense pin w in
  {| time_count := (time_count w1 + 0.1)%float;
     led_on_count := led_on_count w1 |}.

(** The loop itself.  [i] counts the reads of the pin made so far; the
    loop returns [led_on_count] and the number of reads made when it
    exits. *)
Fixpoint listen (fuel : nat) (pin : nat -> bool) (i : nat) (w : window)
  : result (float * nat) :=
  if listening w then
    match fuel with
    | O => Fuel
    | S fuel' => listen fuel' pin (S i) (tick (pin i) w)
    end
  else Ok (led_on_count w, i).

(** The window after [n] passes through the loop body (fewer if the loop
    has exited before), with the number of reads made. *)
Fixpoint advance (n : nat) (pin : nat -> bool) (i : nat) (w : window)
  : nat * window :=
  match n with
  | O => (i, w)
  | S n' =>
      if listening w then advance n' pin (S i) (tick (pin i) w) else (i, w)
  end.

(** Does the pass numbered [n] (from 0) of a window that starts at read [i]
    take the restart branch of line 166? *)
Definition restarts (pin : nat -> bool) (i n : nat) : bool :=
  let '(j, w) := advance n pin i fresh in
  listening w && pin j && restart w.

(** ** Classifying: the [for] loop of lines 179-181 *)

(** [led_on_count >= band[0] and led_on_count <= band[1]]. *)
Definition inside (band : float * float) (led_on_count : float) : bool :=
  ((fst band <=? led_on_count) && (led_on_count <=? snd band))%float.

(** The passes of the loop for the values [xs] of [x]. *)
Fixpoint scan (c : tables) (led_on_count : float) (xs : list nat)
  (new_gate_status : Z) : result Z :=
  match xs with
  | [] => Ok new_gate_status
  | x :: xs' =>
      band <- index (gate_status_time c) (Z.of_nat x) ;;
      if inside band led_on_count then
        option <- index (gate_status_options c) (Z.of_nat x) ;;
        scan c led_on_count xs' option
      else scan c led_on_count xs' new_gate_status
  end.

(** Line 159 and the loop over [range(0, len(gate_status_options))]. *)
Definition classify (c : tables) (led_on_count : float) : result Z :=
  scan c led_on_count (seq 0 (List.length (gate_status_options c))) 0.

(** ** Deciding: lines 183-238 *)

Record monitor : Type := {
  gate_status : Z;
  gate_status_tobeconfirmed : Z;
  gate_status_lastupdate : Z
}.

(** Lines 124, 149 and 152; [t0] is what [time.time()] returned. *)
Definition boot (t0 : Z) : monitor :=
  {| gate_status := 0;
     gate_status_tobeconfirmed := -1;
     gate_status_lastupdate := t0 |}.

(** The status becomes [new_gate_status] at time [stamp]. *)
Definition commit (new_gate_status tobeconfirmed stamp : Z) : monitor :=
  {| gate_status := new_gate_status;
     gate_status_tobeconfirmed := tobeconfirmed;
     gate_status_lastupdate := stamp |}.

(** [now] is what [time.time()] returns on line 194, [stamp] what it
    returns on line 201, 215 or 232.  The result is the new state and the
    messages given to [notify]. *)
Definition update (c : tables) (now stamp new_gate_status : Z) (m : monitor)
  : result (monitor * list string) :=
  if new_gate_status =? gate_status m then
    (* lines 184-201 *)
    _ <- index (gate_status_string c) new_gate_status ;;
    report <- index (gate_status_report c) new_gate_status ;;
    if truthy report then
      wait <- index (gate_status_wait c) new_gate_status ;;
      let time_compare := gate_status_lastupdate m + wait in
      let time_difference := now - time_compare in
      if time_difference >=? 0 then
        again <- index (gate_status_string_repeat c) new_gate_status ;;
        Ok (commit (gate_status m) (gate_status_tobeconfirmed m) stamp, [again])
      else Ok (m, [])
    else Ok (m, [])
  else
    (* lines 203-238 *)
    first <- index (gate_status_string c) new_gate_status ;;
    confirm <- index (gate_status_confirm c) new_gate_status ;;
    if truthy confirm then
      if gate_status_tobeconfirmed m =? new_gate_status then
        (* lines 211-222 *)
        report <- index (gate_status_report c) new_gate_status ;;
        Ok (commit new_gate_status (-1) stamp,
            if truthy report then [first] else [])
      else
        (* lines 225-226 *)
        Ok ({| gate_status := gate_status m;
               gate_status_tobeconfirmed := new_gate_status;
               gate_status_lastupdate := gate_status_lastupdate m |}, [])
    else
      (* lines 230-238 *)
      report <- index (gate_status_report c) new_gate_status ;;
      if truthy report then Ok (commit new_gate_status (-1) stamp, [first])
      else Ok (commit new_gate_status (gate_status_tobeconfirmed m) stamp, []).

(** ** The outer loop *)

(** What one pass of the outer loop learns from outside once it has
    listened: [led_on_count] and the two readings of the clock. *)
Definition observation : Type := (float * Z * Z)%type.

(** Lines 179-238 for one window. *)
Definition observe (c : tables) (o : observation) (m : monitor)
  : result (monitor * list string) :=
  let '(led_on_count, now, stamp) := o in
  new_gate_status <- classify c led_on_count ;;
  update c now stamp new_gate_status m.

(** Lines 179-238 for a sequence of windows; the messages are kept per
    window. *)
Fixpoint run (c : tables) (os : list observation) (m : monitor)
  : result (monitor * list (list string)) :=
  match os with
  | [] => Ok (m, [])
  | o :: os' =>
      '(m1, out) <- observe c o m ;;
      '(m2, outs) <- run c os' m1 ;;
      Ok (m2, out :: outs)
  end.

(** The world [read_gate] runs in: the pin, read by read, and the clock,
    pass by pass of the outer loop. *)
Record world : Type := {
  pin_value : nat -> bool;
  time_now : nat -> Z;
  time_stamp : nat -> Z
}.

(** [n] passes of the outer loop (lines 155-238), numbered from [k], the
    pin having been read [i] times before; [fuel] bounds each window's
    listening. *)
Fixpoint passes (c : tables) (fuel n : nat) (e : world) (k i : nat)
  (m : monitor) : result (monitor * list (list string)) :=
  match n with
  | O => Ok (m, [])
  | S n' =>
      '(led_on_count, j) <- listen fuel (pin_value e) i fresh ;;
      '(m1, out) <- observe c (led_on_count, time_now e k, time_stamp e k) m ;;
      '(m2, outs) <- passes c fuel n' e (S k) j m1 ;;
      Ok (m2, out :: outs)
  end.

(** [read_gate], stopped after [n] windows; [t0] is the clock of line
    152. *)
Definition read_gate (fuel n : nat) (e : world) (t0 : Z)
  : result (monitor * list (list string)) :=
  passes crossley fuel n e 0 0 (boot t0).

(** ** Counting in ticks *)

(** [0.1] added [n] times to [0]. *)
Fixpoint tenths (n : nat) : float :=
  match n with
  | O => 0%float
  | S n' => (tenths n' + 0.1)%float
  end.

(** The number of additions of [0.1] after which [time_count < 5] fails
    (see [tenths_listening]). *)
Definition window_ticks : nat := 51.

(** What the sums [tenths 0], ..., [tenths window_ticks] are worth in the
    comparisons of the loop: below, at or above [5], above [0], equal to
    [0], and in increasing order. *)
Definition tenths_table : bool :=
  forallb
    (fun t =>
       Bool.eqb (tenths t <? 5)%float (t <? window_ticks)%nat &&
       Bool.eqb (0 <? tenths t)%float (0 <? t)%nat &&
       Bool.eqb (tenths t =? 0)%float (t =? 0)%nat &&
       forallb (fun l => (tenths l <=? tenths t)%float) (seq 0 (S t)))
    (seq 0 (S window_ticks)).

(** The window whose counters have been incremented [t] and [l] times. *)
Definition counted (t l : nat) : window :=
  {| time_count := tenths t; led_on_count := tenths l |}.

(** [tick] on the numbers of increments. *)
Definition count (pin : bool) (tl : nat * nat) : nat * nat :=
  let '(t, l) := tl in
  if pin then
    if (0 <? t)%nat && (l =? 0)%nat then (O, l) else (S t, S l)
  else (S t, l).

(** A window reached after [p] passes that began at read [i]: both
    counters are sums of tenths, [led_on_count] of no more of them than
    [time_count], and [time_count] of no more than passes were made. *)
Definition reached (i p : nat) (jw : nat * window) : Prop :=
  exists t l,
    snd jw = counted t l /\ (l <= t)%nat /\ (t <= window_ticks)%nat /\ (t <= p)%nat /\
    fst jw = (i + p)%nat.

(** ** Properties of tables and states *)

(** Does the band of entry [x] contain [led_on_count]? *)
Definition matches (c : tables) (led_on_count : float) (x : nat) : bool :=
  match nth_error (gate_status_time c) x with
  | Some band => inside band led_on_count
  | None => false
  end.

(** Every entry scanned has a band. *)
Definition banded (c : tables) : Prop :=
  (List.length (gate_status_options c) <= List.length (gate_status_time c))%nat.

(** The flag of [status] in a table of flags is set. *)
Definition flagged (flags : list Z) (status : Z) : Prop :=
  exists flag, index flags status = Ok flag /\ truthy flag = true.

(** The flag of [status] in a table of flags is not set. *)
Definition unflagged (flags : list Z) (status : Z) : Prop :=
  exists flag, index flags status = Ok flag /\ truthy flag = false.

(** What is awaiting confirmation is nothing, or a status that needs
    confirming and is not the current one. *)
Definition pending_ok (c : tables) (m : monitor) : Prop :=
  (gate_status_tobeconfirmed m = -1 \/
   flagged (gate_status_confirm c) (gate_status_tobeconfirmed m)) /\
  gate_status_tobeconfirmed m <> gate_status m.

(** ** Some inputs *)

(** The LED off, on, off, on, ... *)
Definition blink : nat -> bool := Nat.odd.

(** The LED always on. *)
Definition lit : nat -> bool := fun _ => true.

(** The LED always off. *)
Definition dark : nat -> bool := fun _ => false.

(** A power failure seen in two windows with a window of closed gate in
    between: the LED lit for the first ten reads of the first and of the
    third window. *)
Definition interrupted : world := {|
  pin_value := fun i => (i <? 10)%nat || ((102 <=? i)%nat && (i <? 112)%nat);
  time_now := fun k => 1000 + 6 * Z.of_nat k;
  time_stamp := fun k => 1001 + 6 * Z.of_nat k
|}.

(** ** The other functions of main.py *)

(** What the functions do to the world, in order. *)
Inductive event : Type :=
| Sleep (seconds : float)
| LedOn
| LedOff
| Print (text : string)
| WlanActive (on : bool)
| WlanConnect (ssid password : string)
| Post (url : string) (headers : list (string * string))
| Close.

(** The [for] loop of [led_status_flash] (lines 52-56), [n] passes. *)
Fixpoint flashes (n : nat) : list event :=
  match n with
  | O => []
  | S n' => Sleep 0.2 :: LedOn :: Sleep 0.2 :: LedOff :: flashes n'
  end.

(** [led_status_flash] (lines 42-56); [range(num_flashes)] is empty when
    [num_flashes] is not positive. *)
Definition led_status_flash (num_flashes : Z) : list event :=
  flashes (Z.to_nat num_flashes).

(** The loop [while not wlan.isconnected(): pass] (lines 76-77):
    [isconnected k] is what the poll numbered [k] returns; the result is
    the number of polls made so far. *)
Fixpoint await (fuel : nat) (isconnected : nat -> bool) (k : nat)
  : result nat :=
  if isconnected k then Ok (S k)
  else
    match fuel with
    | O => Fuel
    | S fuel' => await fuel' isconnected (S k)
    end.

(** [connect_wifi] (lines 58-80).  [ifconfig] is [wlan.ifconfig()] as
    [print] shows it.  The result is what was done and the number of polls
    of [wlan.isconnected()]. *)
Definition connect_wifi (fuel : nat) (isconnected : nat -> bool)
  (ifconfig ssid password : string) : result (list event * nat) :=
  if negb (isconnected 0%nat) then
    polls <- await fuel isconnected 1 ;;
    Ok ([WlanActive true; Print "Connecting to WiFi..."]
          ++ led_status_flash 4
          ++ [WlanConnect ssid password]
          ++ led_status_flash 2
          ++ [Print ("WiFi connected. Network config: " ++ ifconfig)],
        polls)
  else Ok ([WlanActive true], 1%nat).

(** Line 29. *)
Definition pushover_url : string := "https://api.pushover.net/1/messages.json".

(** Line 105; [+] associates to the left. *)
Definition payload (message app_token user title sound : string) : string :=
  ((((((((("?message=" ++ message) ++ "&token=") ++ app_token) ++ "&user=")
         ++ user) ++ "&title=") ++ title) ++ "&sound=") ++ sound)%string.

(** [notify] (lines 82-111), the request going through. *)
Definition notify (message url app_token user title sound : string)
  : list event :=
  Print "Sending pushover notification..."
    :: led_status_flash 3
    ++ [Post (url ++ payload message app_token user title sound)
          [("user_agent", "crossley_gate")]%string;
        Close].

(** [notify(message)] as [read_gate] calls it (lines 199, 220, 237), the
    other arguments at their defaults. *)
Definition notify_gate (app_token user message : string) : list event :=
  notify message pushover_url app_token user "" "pushover".

(** ** Reading what was done *)

(** Is the onboard LED on after these events, having been [on] before? *)
Definition led_after (on : bool) (es : list event) : bool :=
  fold_left
    (fun on e => match e with LedOn => true | LedOff => false | _ => on end)
    es on.

(** The seconds slept, one entry per [time.sleep]. *)
Definition sleeps (es : list event) : list float :=
  flat_map (fun e => match e with Sleep s => [s] | _ => [] end) es.

(** The times the LED is switched on. *)
Definition switched_on (es : list event) : nat :=
  List.length (filter (fun e => match e with LedOn => true | _ => false end) es).

(** The URLs posted. *)
Definition posts (es : list event) : list string :=
  flat_map (fun e => match e with Post url _ => [url] | _ => [] end) es.

(** The calls of [wlan.connect]. *)
Definition connects (es : list event) : list (string * string) :=
  flat_map
    (fun e => match e with WlanConnect s p => [(s, p)] | _ => [] end) es.

(** ** Reading a window *)

(** The number of reads that find the LED lit among the [n] reads from
    read [i] on. *)
Definition lit_reads (pin : nat -> bool) (i n : nat) : nat :=
  List.length (filter pin (seq i n)).

(** The status main.py gives a window in which [k] lit reads were
    counted. *)
Definition status_of_reads (k : nat) : Z :=
  if (5 <=? k)%nat && (k <=? 14)%nat then 2
  else if (20 <=? k)%nat then 1
  else 0.

(** [status_of_reads] against [classify], for every count a window can
    return. *)
Definition status_table : bool :=
  forallb
    (fun k =>
       match classify crossley (tenths k) with
       | Ok status => status =? status_of_reads k
       | _ => false
       end)
    (seq 0 (S window_ticks)).

(** No window is classified as the current status, and none as the status
    the window before was classified as ([pending], to begin with); every
    status seen needs confirming. *)
Fixpoint unsettled (c : tables) (current pending : Z) (os : list observation)
  : bool :=
  match os with
  | [] => true
  | (led_on_count, _, _) :: os' =>
      match classify c led_on_count with
      | Ok status =>
          negb (status =? current) && negb (status =? pending) &&
          match index (gate_status_confirm c) status with
          | Ok flag => truthy flag
          | _ => false
          end &&
          unsettled c current status os'
      | _ => false
      end
  end.

(** The messages main.py can send. *)
Definition gate_messages : list (list string) :=
  [[]; ["Gate OPEN"]; ["Gate still OPEN"];
   ["Gate has an AC power or battery failure"]]%string.

(** ** Tactics *)

(** Takes a run of [update] apart, branch by branch. *)
Ltac update_cases H :=
  unfold update, bind in H;
  repeat match type of H with
         | context [match ?x with _ => _ end] => destruct x eqn:?
         end;
  try discriminate H;
  try (injection H as <- <-);
  repeat match goal with
         | E : (_ =? _) = true |- _ => apply Z.eqb_eq in E
         | E : (_ =? _) = false |- _ => apply Z.eqb_neq in E
         | E : (_ >=? _) = true |- _ => apply Z.geb_le in E
         end.

Ltac flag_cases :=
  repeat match goal with
         | H : flagged _ _ |- _ => destruct H as (? & ? & ?)
         | H : unflagged _ _ |- _ => destruct H as (? & ? & ?)
         end.

(** * Listening *)

(** ** What the floating-point counters are worth *)

Section Tenths.

#[local] Open Scope nat_scope.

Lemma tenths_table_holds : tenths_table = true.
Proof. vm_compute. reflexivity. Qed.

Lemma tenths_facts (t : nat) :
  t <= window_ticks ->
  (tenths t <? 5)%float = (t <? window_ticks) /\
  (0 <? tenths t)%float = (0 <? t) /\
  (tenths t =? 0)%float = (t =? 0) /\
  forall l, l <= t -> (tenths l <=? tenths t)%float = true.
Proof.
  intros Ht.
  pose proof tenths_table_holds as H. unfold tenths_table in H.
  rewrite forallb_forall in H.
  specialize (H t). rewrite in_seq in H.
  assert (Hin : 0 <= t < 0 + S window_ticks) by lia.
  apply H in Hin. clear H.
  rewrite !andb_true_iff in Hin. destruct Hin as [[[H1 H2] H3] H4].
  apply eqb_prop in H1, H2, H3.
  repeat split; try assumption.
  intros l Hl. rewrite forallb_forall in H4. apply H4.
  rewrite in_seq. lia.
Qed.

Lemma tenths_listening (t l : nat) :
  t <= window_ticks -> listening (counted t l) = (t <? window_ticks).
Proof. intros Ht. unfold listening. simpl. now apply tenths_facts. Qed.

Lemma tenths_restart (t l : nat) :
  t <= window_ticks -> l <= window_ticks ->
  restart (counted t l) = (0 <? t) && (l =? 0).
Proof.
  intros Ht Hl. unfold restart. simpl.
  destruct (tenths_facts t Ht) as (_ & -> & _).
  destruct (tenths_facts l Hl) as (_ & _ & -> & _).
  reflexivity.
Qed.

(** [tick] is [count] as long as the window is listening. *)
Lemma tick_counted (pin : bool) (t l : nat) :
  l <= t -> t <= window_ticks ->
  tick pin (counted t l) =
  counted (fst (count pin (t, l))) (snd (count pin (t, l))).
Proof.
  intros Hl Ht. unfold tick, sense, count.
  rewrite tenths_restart by lia.
  destruct pin; [destruct ((0 <? t) && (l =? 0)) eqn:E |]; simpl.
  - apply andb_true_iff in E. destruct E as [_ E].
    apply Nat.eqb_eq in E. subst l. reflexivity.
  - reflexivity.
  - reflexivity.
Qed.

End Tenths.

(** ** The windows the loop goes through *)

Section Windows.

#[local] Open Scope nat_scope.

Variable pin : nat -> bool.

Lemma advance_S (n i : nat) (w : window) :
  advance (S n) pin i w =
  (let '(j, w') := advance n pin i w in
   if listening w' then (S j, tick (pin j) w') else (j, w')).
Proof.
  revert i w. induction n as [|n IH]; intros i w.
  - simpl. destruct (listening w); reflexivity.
  - change (advance (S (S n)) pin i w)
      with (if listening w then advance (S n) pin (S i) (tick (pin i) w)
            else (i, w)).
    destruct (listening w) eqn:E.
    + rewrite IH. simpl. rewrite E. reflexivity.
    + simpl. rewrite E. rewrite E. reflexivity.
Qed.

Lemma reached_fresh (i : nat) : reached i 0 (i, fresh).
Proof. exists 0, 0. simpl. repeat split; lia. Qed.

Lemma reached_tick (i p j : nat) (w : window) :
  reached i p (j, w) -> listening w = true ->
  reached i (S p) (S j, tick (pin j) w).
Proof.
  intros (t & l & Hw & Hl & Ht & Hp & Hj) Hlis. simpl in *. subst w.
  rewrite tenths_listening in Hlis by assumption.
  apply Nat.ltb_lt in Hlis.
  rewrite tick_counted by lia.
  exists (fst (count (pin j) (t, l))), (snd (count (pin j) (t, l))).
  split; [reflexivity|].
  unfold count.
  destruct (pin j); [destruct ((0 <? t) && (l =? 0)) eqn:E|];
    cbn [fst snd]; repeat split; try lia.
  all: apply andb_true_iff in E; destruct E as [_ E];
    apply Nat.eqb_eq in E; lia.
Qed.

(** After [n] passes at most, the window is a reached one. *)
Lemma advance_reached (n i : nat) :
  exists p, p <= n /\ reached i p (advance n pin i fresh).
Proof.
  induction n as [|n (p & Hp & IH)].
  - exists 0. split; [lia | apply reached_fresh].
  - rewrite advance_S. destruct (advance n pin i fresh) as [j w].
    destruct (listening w) eqn:E.
    + exists (S p). split; [lia | now apply reached_tick].
    + exists p. split; [lia | assumption].
Qed.

(** Once the loop has exited, more passes change nothing. *)
Lemma advance_exited (n k i : nat) :
  listening (snd (advance n pin i fresh)) = false ->
  advance (n + k) pin i fresh = advance n pin i fresh.
Proof.
  intros H. induction k as [|k IH].
  - now rewrite Nat.add_0_r.
  - rewrite Nat.add_succ_r, advance_S, IH.
    destruct (advance n pin i fresh) as [j w]. simpl in H. now rewrite H.
Qed.

(** [listen] returns what [advance] arrives at. *)
Lemma listen_advance (fuel i : nat) (w : window) :
  listen fuel pin i w =
  (let '(j, w') := advance fuel pin i w in
   if listening w' then Fuel else Ok (led_on_count w', j)).
Proof.
  revert i w. induction fuel as [|fuel IH]; intros i w; simpl.
  - destruct (listening w); reflexivity.
  - destruct (listening w) eqn:E.
    + apply IH.
    + now rewrite E.
Qed.

(** While the loop is listening, every pass reads the pin once. *)
Lemma advance_listening (n i : nat) (w : window) :
  listening (snd (advance n pin i w)) = true ->
  fst (advance n pin i w) = i + n.
Proof.
  induction n as [|n IH].
  - simpl. intros _. lia.
  - rewrite advance_S.
    destruct (advance n pin i w) as [j w'] eqn:E. simpl in IH.
    destruct (listening w') eqn:E'; simpl; intros H.
    + rewrite IH by reflexivity. lia.
    + congruence.
Qed.

End Windows.

(** ** The invariant of the loop *)

(** C9. At the end of every pass through the loop body, whatever the pin
    reads and whether or not the pass restarted [time_count],
    [led_on_count <= time_count]. *)
Theorem led_on_count_le_time_count (pin : nat -> bool) (i n : nat) :
  let w := snd (advance n pin i fresh) in
  (led_on_count w <=? time_count w)%float = true.
Proof.
  destruct (advance_reached pin n i) as (p & _ & t & l & Hw & Hl & Ht & _).
  cbv zeta. rewrite Hw. simpl.
  now apply tenths_facts.
Qed.

(** ** A pass on which the LED is lit *)

(** Within a window, the test of line 166 succeeds exactly after a pass
    that read the LED off, while nothing has been counted yet. *)
Lemma restart_after_unlit (pin : nat -> bool) (i n : nat) :
  listening (snd (advance n pin i fresh)) = true ->
  restart (snd (advance (S n) pin i fresh)) =
  negb (pin (i + n)%nat) &&
  (led_on_count (snd (advance (S n) pin i fresh)) =? 0)%float.
Proof.
  intros Hlis. rewrite advance_S.
  pose proof (advance_listening pin n i fresh Hlis) as Hj.
  destruct (advance_reached pin n i) as (p & _ & t & l & Hw & Hl & Ht & _).
  destruct (advance n pin i fresh) as [j w]. cbn [fst snd] in Hlis, Hw, Hj.
  rewrite Hlis. cbn [snd]. subst w j.
  rewrite tenths_listening in Hlis by assumption.
  apply Nat.ltb_lt in Hlis.
  rewrite tick_counted by lia.
  assert (Hc : (fst (count (pin (i + n)%nat) (t, l)) <= window_ticks)%nat /\
               (snd (count (pin (i + n)%nat) (t, l)) <= window_ticks)%nat).
  { unfold count. destruct (pin (i + n)%nat);
      [destruct ((0 <? t)%nat && (l =? 0)%nat)|]; simpl; lia. }
  destruct Hc as [Hc1 Hc2].
  rewrite tenths_restart by assumption.
  destruct (tenths_facts _ Hc2) as (_ & _ & Hz & _).
  unfold counted at 1. cbn [led_on_count]. rewrite Hz.
  unfold count.
  destruct (pin (i + n)%nat);
    [destruct ((0 <? t)%nat && (l =? 0)%nat) eqn:E|]; simpl; reflexivity.
Qed.

(** C7. On a pass that reads the LED lit: if [time_count > 0] and
    [led_on_count == 0], [time_count] is set to [-0.1], so that the
    increment of line 176 brings it back to [0], and [led_on_count] is left
    alone; on every other such pass [led_on_count] grows by [0.1] (and
    [time_count] by [0.1], as always).  In a window that started afresh
    the first case is the one of a lit read right after an unlit read of
    the same window, nothing having been counted yet; it never is the
    first pass. *)
Theorem lit_pass (w : window) (pin : nat -> bool) (i n : nat) :
  ((0 <? time_count w)%float = true -> (led_on_count w =? 0)%float = true ->
   sense true w =
     {| time_count := (-0.1)%float; led_on_count := led_on_count w |} /\
   tick true w =
     {| time_count := 0%float; led_on_count := led_on_count w |}) /\
  ((0 <? time_count w)%float = false \/ (led_on_count w =? 0)%float = false ->
   tick true w =
     {| time_count := (time_count w + 0.1)%float;
        led_on_count := (led_on_count w + 0.1)%float |}) /\
  restart fresh = false /\
  (listening (snd (advance n pin i fresh)) = true ->
   restart (snd (advance (S n) pin i fresh)) =
   negb (pin (i + n)%nat) &&
   (led_on_count (snd (advance (S n) pin i fresh)) =? 0)%float).
Proof.
  repeat split.
  - unfold sense, restart. now rewrite H, H0.
  - unfold tick, sense, restart. now rewrite H, H0.
  - intros H. unfold tick, sense, restart.
    destruct H as [-> | ->]; [reflexivity|].
    now rewrite andb_false_r.
  - apply restart_after_unlit.
Qed.

(** [lit_pass] after one unlit read, after one lit read, and on the
    blinking LED. *)
Lemma lit_pass_example :
  (sense true (counted 1 0) =
     {| time_count := (-0.1)%float; led_on_count := 0%float |} /\
   tick true (counted 1 0) = fresh) /\
  tick true (counted 1 1) = counted 2 2 /\
  restart (snd (advance 2 blink 0 fresh)) = false.
Proof.
  pose proof (lit_pass (counted 1 0) blink 0 1) as (A & _ & _ & D).
  pose proof (lit_pass (counted 1 1) blink 0 1) as (_ & B & _ & _).
  split; [|split].
  - apply A; reflexivity.
  - apply B. right. reflexivity.
  - rewrite D; reflexivity.
Defined.

(** ** Leaving the loop *)

Section Exit.

#[local] Open Scope nat_scope.

Variable pin : nat -> bool.
Variable i : nat.

(** Without a restart every pass adds a tenth to [time_count]. *)
Lemma no_restart_progress (N m : nat) :
  m <= window_ticks ->
  (forall n, N <= n < N + m -> restarts pin i n = false) ->
  listening (snd (advance (N + m) pin i fresh)) = false \/
  exists t l,
    snd (advance (N + m) pin i fresh) = counted t l /\
    l <= t /\ t <= window_ticks /\ m <= t.
Proof.
  induction m as [|m IH]; intros Hm Hno.
  - right. rewrite Nat.add_0_r.
    destruct (advance_reached pin N i) as (p & _ & t & l & Hw & Hl & Ht & _).
    exists t, l. repeat split; try assumption; lia.
  - specialize (IH ltac:(lia) ltac:(intros; apply Hno; lia)).
    specialize (Hno (N + m) ltac:(lia)). unfold restarts in Hno.
    rewrite Nat.add_succ_r, advance_S.
    destruct (advance (N + m) pin i fresh) as [j w]. cbn [snd] in IH.
    destruct (listening w) eqn:Hlis; [|now left].
    destruct IH as [IH | (t & l & Hw & Hl & Ht & Hmt)]; [congruence|].
    right. subst w. cbn [snd].
    rewrite tenths_listening in Hlis by assumption.
    apply Nat.ltb_lt in Hlis.
    rewrite tick_counted by lia.
    rewrite tenths_restart in Hno by lia.
    exists (fst (count (pin j) (t, l))), (snd (count (pin j) (t, l))).
    split; [reflexivity|]. unfold count.
    destruct (pin j); simpl in Hno.
    + rewrite Hno. cbn [fst snd]. lia.
    + cbn [fst snd]. lia.
Qed.

(** A loop that is not listening after [M] passes has exited at some pass
    [n <= M], and was listening before. *)
Lemma first_exit (M : nat) :
  listening (snd (advance M pin i fresh)) = false ->
  exists n,
    n <= M /\
    listening (snd (advance n pin i fresh)) = false /\
    forall m, m < n -> listening (snd (advance m pin i fresh)) = true.
Proof.
  induction M as [|M IH]; intros H.
  - exists 0. repeat split; [lia | assumption | lia].
  - destruct (listening (snd (advance M pin i fresh))) eqn:E.
    + exists (S M). repeat split; [lia | assumption |].
      intros m Hm. destruct (listening (snd (advance m pin i fresh))) eqn:E';
        [reflexivity|].
      pose proof (advance_exited pin m (M - m) i E') as Hx.
      replace (m + (M - m)) with M in Hx by lia.
      rewrite Hx in E. congruence.
    + destruct (IH eq_refl) as (n & Hn & Hex & Hbefore).
      exists n. repeat split; [lia | assumption | assumption].
Qed.

(** The number of reads made when the loop exits at pass [n]. *)
Lemma exit_index (n : nat) :
  (forall m, m < n -> listening (snd (advance m pin i fresh)) = true) ->
  fst (advance n pin i fresh) = i + n.
Proof.
  intros Hbefore. destruct n as [|n]; [simpl; lia|].
  pose proof (Hbefore n ltac:(lia)) as Hlis.
  pose proof (advance_listening pin n i fresh Hlis) as Hj.
  rewrite advance_S. destruct (advance n pin i fresh) as [j w].
  cbn [fst snd] in *. rewrite Hlis. cbn [fst]. lia.
Qed.

End Exit.

(** The LED blinking off, on, off, on, ... restarts the window for ever. *)
Lemma listen_blink (fuel i : nat) :
  (Nat.odd i = false -> listen fuel blink i fresh = Fuel) /\
  (Nat.odd i = true -> listen fuel blink i (counted 1 0) = Fuel).
Proof.
  revert i. induction fuel as [|fuel IH]; intros i.
  - split; reflexivity.
  - destruct (IH (S i)) as [IH0 IH1].
    rewrite Nat.odd_succ, <- Nat.negb_odd in IH0, IH1.
    split; intros Hi.
    + change (listen (S fuel) blink i fresh)
        with (listen fuel blink (S i) (tick (blink i) fresh)).
      unfold blink at 2. rewrite Hi. apply IH1. now rewrite Hi.
    + change (listen (S fuel) blink i (counted 1 0))
        with (listen fuel blink (S i) (tick (blink i) (counted 1 0))).
      unfold blink at 2. rewrite Hi. apply IH0. now rewrite Hi.
Qed.

(** C4, as stated, fails twice: on a blinking LED the loop never exits, and
    on an LED that stays lit it returns more than [5]. *)
Lemma listen_blink_never_lit_over_5 :
  ~ (exists fuel r, listen fuel blink 0 fresh = Ok r) /\
  (exists fuel led_on_count j,
     listen fuel lit 0 fresh = Ok (led_on_count, j) /\
     (led_on_count <=? 5)%float = false).
Proof.
  split.
  - intros (fuel & r & H).
    destruct (listen_blink fuel 0) as [H0 _]. rewrite H0 in H by reflexivity.
    discriminate.
  - exists 51%nat, (tenths 51), 51%nat. split; reflexivity.
Qed.

(** C4, amended. As soon as [window_ticks] passes in a row go by without
    a restart the loop has exited: it leaves at the first pass that finds
    [time_count < 5] false, having read the pin once per pass, and returns
    a [led_on_count] that is a sum of tenths, as many as there were passes
    at most, with [0 <= led_on_count <= time_count]. *)
Theorem listen_exits (pin : nat -> bool) (i N : nat) :
  forallb (fun n => negb (restarts pin i n)) (seq N window_ticks) = true ->
  exists n k,
    (n <= N + window_ticks)%nat /\
    (forall m, (m < n)%nat ->
       listening (snd (advance m pin i fresh)) = true) /\
    (time_count (snd (advance n pin i fresh)) <? 5)%float = false /\
    (forall fuel, (n <= fuel)%nat ->
       listen fuel pin i fresh = Ok (tenths k, (i + n)%nat)) /\
    (k <= n)%nat /\ (k <= window_ticks)%nat /\
    (0 <=? tenths k)%float = true /\
    (tenths k <=? time_count (snd (advance n pin i fresh)))%float = true.
Proof.
  intros Hno. rewrite forallb_forall in Hno.
  assert (Hno' : forall n, (N <= n < N + window_ticks)%nat ->
                           restarts pin i n = false).
  { intros n Hn. apply negb_true_iff, Hno, in_seq. lia. }
  assert (Hout : listening (snd (advance (N + window_ticks) pin i fresh)) = false).
  { destruct (no_restart_progress pin i N window_ticks (le_n _) Hno')
      as [H | (t & l & Hw & Hl & Ht & Hm)]; [assumption|].
    rewrite Hw, tenths_listening by assumption.
    apply Nat.ltb_ge. assumption. }
  destruct (first_exit pin i _ Hout) as (n & Hn & Hex & Hbefore).
  pose proof (exit_index pin i n Hbefore) as Hj.
  destruct (advance_reached pin n i) as (p & Hp & t & l & Hw & Hl & Ht & Htp & _).
  exists n, l. repeat split; try assumption; try lia.
  - intros fuel Hfuel. rewrite listen_advance.
    replace fuel with (n + (fuel - n))%nat by lia.
    rewrite advance_exited by assumption.
    destruct (advance n pin i fresh) as [j w]. cbn [fst snd] in *.
    rewrite Hex. subst. reflexivity.
  - destruct (tenths_facts l ltac:(lia)) as (_ & _ & _ & H). apply (H 0%nat). lia.
  - rewrite Hw. simpl. now apply tenths_facts.
Qed.

(** [listen_exits] on an LED that is lit from the first read on. *)
Lemma listen_exits_lit :
  exists n k,
    (n <= 0 + window_ticks)%nat /\
    (forall m, (m < n)%nat ->
       listening (snd (advance m lit 0 fresh)) = true) /\
    (time_count (snd (advance n lit 0 fresh)) <? 5)%float = false /\
    (forall fuel, (n <= fuel)%nat ->
       listen fuel lit 0 fresh = Ok (tenths k, (0 + n)%nat)) /\
    (k <= n)%nat /\ (k <= window_ticks)%nat /\
    (0 <=? tenths k)%float = true /\
    (tenths k <=? time_count (snd (advance n lit 0 fresh)))%float = true.
Proof.
  apply (listen_exits lit 0 0). vm_compute. reflexivity.
Defined.

(** * Classifying *)

(** ** Indexing *)

Lemma index_nat {A : Type} (l : list A) (x : nat) :
  index l (Z.of_nat x) =
  match nth_error l x with
  | Some a => Ok a
  | None => IndexError
  end.
Proof.
  unfold index.
  destruct (Z.ltb_spec (Z.of_nat x) 0) as [H|_]; [lia|].
  destruct (Z.leb_spec 0 (Z.of_nat x)) as [_|H]; [|lia].
  destruct (Z.ltb_spec (Z.of_nat x) (Z.of_nat (List.length l))) as [H|H]; simpl.
  - now rewrite Nat2Z.id.
  - assert (Hx : (List.length l <= x)%nat) by lia.
    apply nth_error_None in Hx. now rewrite Hx.
Qed.

Lemma index_nat_Some {A : Type} (l : list A) (x : nat) :
  (x < List.length l)%nat -> exists a, nth_error l x = Some a /\ index l (Z.of_nat x) = Ok a.
Proof.
  intros H. rewrite index_nat.
  destruct (nth_error l x) as [a|] eqn:E.
  - now exists a.
  - apply nth_error_None in E. lia.
Qed.

(** ** The scan *)

Section Scan.

Variable c : tables.
Variable led_on_count : float.

Lemma scan_app (xs ys : list nat) (s : Z) :
  scan c led_on_count (xs ++ ys) s =
  (s' <- scan c led_on_count xs s ;; scan c led_on_count ys s').
Proof.
  revert s. induction xs as [|x xs IH]; intros s; simpl; [reflexivity|].
  destruct (index (gate_status_time c) (Z.of_nat x)) as [band| |]; simpl;
    try reflexivity.
  destruct (inside band led_on_count); [|apply IH].
  destruct (index (gate_status_options c) (Z.of_nat x)); simpl;
    try reflexivity.
  apply IH.
Qed.

(** One pass of the loop, in terms of [matches]. *)
Lemma scan_cons (x : nat) (xs : list nat) (s : Z) :
  banded c -> (x < List.length (gate_status_options c))%nat ->
  exists option,
    nth_error (gate_status_options c) x = Some option /\
    scan c led_on_count (x :: xs) s =
    scan c led_on_count xs (if matches c led_on_count x then option else s).
Proof.
  intros Hb Hx.
  destruct (index_nat_Some (gate_status_options c) x Hx) as (o & Ho & Hio).
  destruct (index_nat_Some (gate_status_time c) x ltac:(unfold banded in Hb; lia))
    as (band & Hband & Hib).
  exists o. split; [assumption|].
  simpl. unfold matches. rewrite Hib, Hband. simpl.
  destruct (inside band led_on_count); [|reflexivity].
  now rewrite Hio.
Qed.

(** The scan of entries that all exist does not fail. *)
Lemma scan_total (xs : list nat) (s : Z) :
  banded c ->
  Forall (fun x => (x < List.length (gate_status_options c))%nat) xs ->
  exists s', scan c led_on_count xs s = Ok s'.
Proof.
  intros Hb Hxs. revert s. induction Hxs as [|x xs Hx _ IH]; intros s.
  - now exists s.
  - destruct (scan_cons x xs s Hb Hx) as (o & _ & ->). apply IH.
Qed.

(** Entries that do not match leave the status as it is. *)
Lemma scan_unmatched (xs : list nat) (s : Z) :
  banded c ->
  Forall (fun x => (x < List.length (gate_status_options c))%nat) xs ->
  forallb (fun x => negb (matches c led_on_count x)) xs = true ->
  scan c led_on_count xs s = Ok s.
Proof.
  intros Hb Hxs. revert s. induction Hxs as [|x xs Hx _ IH]; intros s Hno.
  - reflexivity.
  - simpl in Hno. apply andb_true_iff in Hno. destruct Hno as [Hno1 Hno2].
    apply negb_true_iff in Hno1.
    destruct (scan_cons x xs s Hb Hx) as (o & _ & ->).
    rewrite Hno1. now apply IH.
Qed.

Lemma seq_below (a n : nat) (bound : nat) :
  (a + n <= bound)%nat -> Forall (fun x => (x < bound)%nat) (seq a n).
Proof. intros H. apply Forall_forall. intros x Hx. apply in_seq in Hx. lia. Qed.

(** The scan returns the initial status or one of the options. *)
Lemma scan_result (xs : list nat) (s s' : Z) :
  scan c led_on_count xs s = Ok s' ->
  s' = s \/ In s' (gate_status_options c).
Proof.
  revert s. induction xs as [|x xs IH]; intros s; simpl.
  - intros [= ->]. now left.
  - destruct (index (gate_status_time c) (Z.of_nat x)) as [band| |]; simpl;
      try discriminate.
    destruct (inside band led_on_count); [|apply IH].
    rewrite index_nat.
    destruct (nth_error (gate_status_options c) x) as [o|] eqn:E; simpl;
      try discriminate.
    intros H. apply IH in H. destruct H as [-> | H]; [|now right].
    right. eapply nth_error_In, E.
Qed.

End Scan.

(** C5. The loop of lines 179-181 goes through the entries in the order of
    the tables and leaves the option of the last entry whose band, ends
    included, contains [led_on_count]: when entry [x] matches and no later
    entry does, the status is [gate_status_options[x]].  A single matching
    band is the case where no earlier entry matches either; with
    overlapping bands the entry with the highest index wins. *)
Theorem classify_last_match (c : tables) (led_on_count : float) (x : nat)
  (status : Z) :
  banded c ->
  nth_error (gate_status_options c) x = Some status ->
  matches c led_on_count x = true ->
  forallb (fun y => negb (matches c led_on_count y))
    (seq (S x) (List.length (gate_status_options c) - S x)) = true ->
  classify c led_on_count = Ok status.
Proof.
  intros Hb Hx Hm Hlater.
  assert (Hlt : (x < List.length (gate_status_options c))%nat).
  { apply nth_error_Some. congruence. }
  unfold classify.
  replace (List.length (gate_status_options c))
    with (x + S (List.length (gate_status_options c) - S x))%nat at 1 by lia.
  rewrite seq_app, scan_app. simpl seq.
  destruct (scan_total c led_on_count (seq 0 x) 0 Hb) as (s & ->).
  { apply seq_below. lia. }
  cbn [bind].
  destruct (scan_cons c led_on_count x
              (seq (S x) (List.length (gate_status_options c) - S x)) s Hb Hlt)
    as (o & Ho & ->).
  rewrite Hm. assert (o = status) as -> by congruence.
  apply scan_unmatched; try assumption.
  apply seq_below. lia.
Qed.

(** [classify_last_match] on the tables of main.py, the LED lit for 3
    seconds. *)
Lemma classify_last_match_open : classify crossley 3%float = Ok 1.
Proof.
  apply (classify_last_match crossley 3%float 1 1).
  - unfold banded. simpl. lia.
  - reflexivity.
  - reflexivity.
  - reflexivity.
Defined.

(** A table with overlapping bands: the later entry wins. *)
Lemma classify_overlap :
  classify
    {| gate_status_options := [0; 1; 2];
       gate_status_string := [];
       gate_status_string_repeat := [];
       gate_status_time := [(0, 0); (2, 6); (1, 3)]%float;
       gate_status_report := [];
       gate_status_wait := [];
       gate_status_confirm := [] |} 2.5%float = Ok 2.
Proof. reflexivity. Qed.

(** C2, as stated, fails: a lit time of three tenths lies in no band of
    main.py, and with the gate open the window is taken for a closed gate
    awaiting confirmation, not for an open one. *)
Lemma unmatched_not_retained :
  forallb (fun x => negb (matches crossley (tenths 3) x)) (seq 0 3) = true /\
  observe crossley (tenths 3, 1000, 1001) (commit 1 (-1) 0) =
    Ok ({| gate_status := 1;
           gate_status_tobeconfirmed := 0;
           gate_status_lastupdate := 0 |}, []) /\
  observe crossley (tenths 3, 1000, 1001) (commit 1 (-1) 0) <>
    update crossley 1000 1001 (gate_status (commit 1 (-1) 0)) (commit 1 (-1) 0).
Proof. repeat split; try reflexivity. vm_compute. discriminate. Qed.

(** C2, amended. A lit time in none of the bands is classified as status
    [0], the value line 159 gives [new_gate_status]: the pass goes on as
    for a window classified as [0]. *)
Theorem unmatched_is_status_0 (c : tables) (led_on_count : float)
  (now stamp : Z) (m : monitor) :
  banded c ->
  forallb (fun x => negb (matches c led_on_count x))
    (seq 0 (List.length (gate_status_options c))) = true ->
  classify c led_on_count = Ok 0 /\
  observe c (led_on_count, now, stamp) m = update c now stamp 0 m.
Proof.
  intros Hb Hno.
  assert (H : classify c led_on_count = Ok 0).
  { apply scan_unmatched; try assumption. apply seq_below. lia. }
  split; [assumption|]. unfold observe. now rewrite H.
Qed.

(** [unmatched_is_status_0] on the tables of main.py, the gate open and the
    LED lit for three tenths. *)
Lemma unmatched_is_status_0_open :
  classify crossley (tenths 3) = Ok 0 /\
  observe crossley (tenths 3, 1000, 1001) (commit 1 (-1) 0) =
  update crossley 1000 1001 0 (commit 1 (-1) 0).
Proof.
  apply (unmatched_is_status_0 crossley (tenths 3) 1000 1001 (commit 1 (-1) 0)).
  - unfold banded. simpl. lia.
  - reflexivity.
Defined.

(** * Deciding *)

(** ** One pass *)

Section Update.

Variable c : tables.
Variables now stamp new_gate_status : Z.
Variables m m' : monitor.
Variable out : list string.
Hypothesis Hupdate : update c now stamp new_gate_status m = Ok (m', out).

(** A status that is not reported sends nothing. *)
Lemma update_unreported :
  unflagged (gate_status_report c) new_gate_status -> out = [].
Proof.
  intros Hun. flag_cases. update_cases Hupdate; congruence.
Qed.

(** What is sent is a string of the status in hand, and that status is
    reported. *)
Lemma update_sends :
  out <> [] ->
  flagged (gate_status_report c) new_gate_status /\
  ((new_gate_status = gate_status m /\
    index (gate_status_string_repeat c) new_gate_status = Ok (hd EmptyString out)) \/
   (new_gate_status <> gate_status m /\ gate_status m' = new_gate_status /\
    index (gate_status_string c) new_gate_status = Ok (hd EmptyString out))) /\
  out = [hd EmptyString out] /\
  gate_status_lastupdate m' = stamp.
Proof.
  intros Hout. update_cases Hupdate; try congruence;
    (split; [eexists; split; eassumption|]); simpl;
    (split; [|split; reflexivity]).
  - left. split; [assumption | reflexivity].
  - right. repeat split; try reflexivity; assumption.
  - right. repeat split; try reflexivity; assumption.
Qed.

(** The status changes only to the status in hand, at time [stamp]; a
    status that needs confirming was awaiting confirmation. *)
Lemma update_commits :
  gate_status m' <> gate_status m ->
  new_gate_status <> gate_status m /\
  m' = commit new_gate_status (gate_status_tobeconfirmed m') stamp /\
  (flagged (gate_status_confirm c) new_gate_status ->
   gate_status_tobeconfirmed m = new_gate_status) /\
  exists first report,
    index (gate_status_string c) new_gate_status = Ok first /\
    index (gate_status_report c) new_gate_status = Ok report /\
    out = (if truthy report then [first] else []) /\
    (truthy report = true -> gate_status_tobeconfirmed m' = -1).
Proof.
  intros Hch. update_cases Hupdate; simpl in Hch; try congruence.
  all: split; [assumption|]; split; [reflexivity|]; split.
  all: try (intros; flag_cases; congruence).
  all: try (intros _; assumption).
  all: do 2 eexists; repeat split; try eassumption;
    match goal with H : truthy _ = _ |- _ => rewrite H end;
    try reflexivity; try discriminate.
Qed.

(** While the status stays, the clock of the last notification moves only
    when a notification is sent. *)
Lemma update_keeps :
  gate_status m' = gate_status m -> out = [] ->
  gate_status_lastupdate m' = gate_status_lastupdate m.
Proof.
  intros Hst Hout. update_cases Hupdate; simpl in *; congruence.
Qed.

(** A notification for a status that stays waits for the clock. *)
Lemma update_repeats :
  gate_status m' = gate_status m -> out <> [] ->
  new_gate_status = gate_status m /\
  exists wait again,
    index (gate_status_wait c) new_gate_status = Ok wait /\
    gate_status_lastupdate m + wait <= now /\
    index (gate_status_string_repeat c) new_gate_status = Ok again /\
    out = [again].
Proof.
  intros Hst Hout. update_cases Hupdate; simpl in *; try congruence.
  split; [assumption|]. do 2 eexists. repeat split; try eassumption. lia.
Qed.

End Update.

(** ** Passes in a row *)

Lemma observe_inv (c : tables) (led_on_count : float) (now stamp : Z)
  (m m' : monitor) (out : list string) :
  observe c (led_on_count, now, stamp) m = Ok (m', out) ->
  exists new_gate_status,
    classify c led_on_count = Ok new_gate_status /\
    update c now stamp new_gate_status m = Ok (m', out).
Proof.
  unfold observe.
  destruct (classify c led_on_count) as [s| |]; simpl; try discriminate.
  intros H. now exists s.
Qed.

Lemma run_cons_inv (c : tables) (o : observation) (os : list observation)
  (m m2 : monitor) (outs : list (list string)) :
  run c (o :: os) m = Ok (m2, outs) ->
  exists m1 out outs',
    observe c o m = Ok (m1, out) /\
    run c os m1 = Ok (m2, outs') /\
    outs = out :: outs'.
Proof.
  simpl. destruct (observe c o m) as [[m1 out]| |]; simpl; try discriminate.
  destruct (run c os m1) as [[m2' outs']| |] eqn:E; simpl; try discriminate.
  intros [= <- <-]. now exists m1, out, outs'.
Qed.

(** ** Changing to a status that needs no confirmation *)

(** The statuses of main.py that need no confirmation. *)
Lemma crossley_unconfirmed (status : Z) :
  unflagged (gate_status_confirm crossley) status ->
  status = 1 \/ status = -2.
Proof.
  intros (flag & Hi & Hf). unfold index in Hi.
  change (Z.of_nat (List.length (gate_status_confirm crossley))) with 3 in Hi.
  cbv zeta in Hi.
  destruct (Z.ltb_spec status 0).
  - destruct (Z.leb_spec 0 (3 + status));
      destruct (Z.ltb_spec (3 + status) 3); cbn [andb] in Hi;
      try discriminate.
    assert (H' : status = -3 \/ status = -2 \/ status = -1) by lia.
    destruct H' as [-> | [-> | ->]]; vm_compute in Hi; injection Hi as <-;
      try discriminate; now right.
  - destruct (Z.leb_spec 0 status);
      destruct (Z.ltb_spec status 3); cbn [andb] in Hi;
      try discriminate.
    assert (H' : status = 0 \/ status = 1 \/ status = 2) by lia.
    destruct H' as [-> | [-> | ->]]; vm_compute in Hi; injection Hi as <-;
      try discriminate; now left.
Qed.

(** C3. When the new status differs from the current one and needs no
    confirmation, the change is made at once: [gate_status] becomes the new
    status, [gate_status_lastupdate] the time read, the first-occurrence
    string is sent if the status is reported, and nothing awaits
    confirmation afterwards, whatever awaited it before. *)
Theorem commit_unconfirmed_at_once (now stamp new_gate_status : Z)
  (m : monitor) :
  new_gate_status <> gate_status m ->
  unflagged (gate_status_confirm crossley) new_gate_status ->
  exists first report,
    index (gate_status_string crossley) new_gate_status = Ok first /\
    index (gate_status_report crossley) new_gate_status = Ok report /\
    update crossley now stamp new_gate_status m =
      Ok ({| gate_status := new_gate_status;
             gate_status_tobeconfirmed := -1;
             gate_status_lastupdate := stamp |},
          if truthy report then [first] else []).
Proof.
  intros Hne Hun. apply crossley_unconfirmed in Hun.
  apply Z.eqb_neq in Hne.
  exists "Gate OPEN"%string, 1.
  destruct Hun as [-> | ->]; (split; [reflexivity|]);
    (split; [reflexivity|]); unfold update; rewrite Hne; reflexivity.
Qed.

(** [commit_unconfirmed_at_once] on the gate opening while a power failure
    awaits confirmation. *)
Lemma commit_unconfirmed_at_once_open :
  exists first report,
    index (gate_status_string crossley) 1 = Ok first /\
    index (gate_status_report crossley) 1 = Ok report /\
    update crossley 1000 1001 1 (commit 0 2 0) =
      Ok ({| gate_status := 1;
             gate_status_tobeconfirmed := -1;
             gate_status_lastupdate := 1001 |},
          if truthy report then [first] else []).
Proof.
  apply (commit_unconfirmed_at_once 1000 1001 1 (commit 0 2 0)).
  - discriminate.
  - exists 0. split; reflexivity.
Defined.

(** ** Statuses that are not reported *)

(** C8. Whatever the windows bring, a pass that classifies its window as a
    status whose report flag is not set gives nothing to [notify], be the
    status new, awaiting confirmation or the current one. *)
Theorem unreported_never_notifies (c : tables) (os : list observation)
  (m m' : monitor) (outs : list (list string)) (k : nat)
  (led_on_count : float) (now stamp status : Z) :
  run c os m = Ok (m', outs) ->
  nth_error os k = Some (led_on_count, now, stamp) ->
  classify c led_on_count = Ok status ->
  unflagged (gate_status_report c) status ->
  nth_error outs k = Some [].
Proof.
  revert m outs k. induction os as [|o os IH]; intros m outs k Hrun Hk Hc Hun.
  - destruct k; discriminate.
  - apply run_cons_inv in Hrun.
    destruct Hrun as (m1 & out & outs' & Hobs & Hrun & ->).
    destruct k as [|k]; simpl in Hk |- *.
    + injection Hk as ->.
      apply observe_inv in Hobs. destruct Hobs as (s & Hs & Hup).
      assert (s = status) as -> by congruence.
      f_equal. eapply update_unreported; eassumption.
    + eapply IH; eassumption.
Qed.

(** [unreported_never_notifies] on main.py: a closed gate confirmed after
    the gate had been open is not notified. *)
Lemma unreported_never_notifies_closed :
  nth_error [["Gate OPEN"%string]; []; []] 2 = Some [].
Proof.
  apply (unreported_never_notifies crossley
           [(3%float, 10, 11); (0%float, 20, 21); (0%float, 30, 31)]
           (boot 0) (commit 0 (-1) 31)
           [["Gate OPEN"%string]; []; []] 2 0%float 30 31 0).
  - reflexivity.
  - reflexivity.
  - reflexivity.
  - exists 0. split; reflexivity.
Defined.

(** ** What awaits confirmation *)

(** The statuses main.py can classify a window as. *)
Lemma classify_crossley (led_on_count : float) :
  exists status,
    classify crossley led_on_count = Ok status /\
    (status = 0 \/ status = 1 \/ status = 2).
Proof.
  destruct (scan_total crossley led_on_count (seq 0 3) 0) as (s & Hs).
  - unfold banded. simpl. lia.
  - apply seq_below. simpl. lia.
  - exists s. split; [exact Hs|].
    apply scan_result in Hs. simpl in Hs. intuition.
Qed.

(** With the tables of main.py no such status raises an [IndexError]. *)
Lemma update_crossley_total (now stamp status : Z) (m : monitor) :
  status = 0 \/ status = 1 \/ status = 2 ->
  exists m' out, update crossley now stamp status m = Ok (m', out).
Proof.
  intros [-> | [-> | ->]]; unfold update;
    destruct (_ =? gate_status m); simpl;
    repeat match goal with
           | |- context [if ?b then _ else _] => destruct b
           end; eauto.
Qed.

Section Pending.

Variable c : tables.

(** A pass on a status that is not negative keeps [pending_ok]. *)
Lemma update_pending_ok (now stamp new_gate_status : Z) (m m' : monitor)
  (out : list string) :
  0 <= new_gate_status -> 0 <= gate_status m -> pending_ok c m ->
  update c now stamp new_gate_status m = Ok (m', out) ->
  0 <= gate_status m' /\ pending_ok c m'.
Proof.
  intros Hnew Hst [Hflag Hne] Hup. unfold pending_ok.
  update_cases Hup; simpl; try (repeat split; (assumption || lia)).
  - (* lines 225-226: the status is to be confirmed *)
    repeat split; try assumption.
    right. eexists. split; eassumption.
  - (* lines 230-232, nothing reported: what was waiting still waits *)
    repeat split; try assumption.
    destruct Hflag as [Hnone | (flag & Hi & Ht)]; [lia|].
    intros Heq. rewrite Heq in Hi. congruence.
Qed.

End Pending.

(** C10. With the tables of main.py, from the state [read_gate] starts in
    and whatever the windows bring, every pass runs through and leaves a
    state in which [gate_status_tobeconfirmed] is [-1] or a status whose
    confirm flag is set, and differs from [gate_status]. *)
Theorem pending_invariant (os : list observation) (t0 : Z) :
  exists m' outs,
    run crossley os (boot t0) = Ok (m', outs) /\
    (gate_status_tobeconfirmed m' = -1 \/
     flagged (gate_status_confirm crossley) (gate_status_tobeconfirmed m')) /\
    gate_status_tobeconfirmed m' <> gate_status m'.
Proof.
  assert (Hgen : forall m, 0 <= gate_status m -> pending_ok crossley m ->
            exists m' outs, run crossley os m = Ok (m', outs) /\
                            pending_ok crossley m').
  { induction os as [|[[led now] stamp] os' IH]; intros m Hst Hok.
    - exists m, []. now split.
    - destruct (classify_crossley led) as (s & Hs & Hrange).
      destruct (update_crossley_total now stamp s m Hrange) as (m1 & out & Hup).
      destruct (update_pending_ok crossley now stamp s m m1 out
                  ltac:(lia) Hst Hok Hup) as [Hst1 Hok1].
      destruct (IH m1 Hst1 Hok1) as (m' & outs & Hrun & Hok').
      exists m', (out :: outs). split; [|assumption].
      simpl. rewrite Hs. simpl. rewrite Hup. simpl. now rewrite Hrun. }
  destruct (Hgen (boot t0)) as (m' & outs & Hrun & Hok).
  - simpl. lia.
  - split; [now left | discriminate].
  - exists m', outs. split; [assumption | exact Hok].
Qed.

(** ** Confirming a status *)

(** C1, the code at a failing input. A power failure is seen in the first
    window, a closed gate in the second, a power failure in the third: the
    power failure, which needs confirming, still awaits confirmation after
    the second window and becomes the status, notified, at the third, with
    no two windows in a row classified as it. *)
Theorem confirmed_after_interruption :
  (listen 51 (pin_value interrupted) 0 fresh = Ok (tenths 10, 51%nat) /\
   classify crossley (tenths 10) = Ok 2) /\
  (listen 51 (pin_value interrupted) 51 fresh = Ok (0%float, 102%nat) /\
   classify crossley 0%float = Ok 0) /\
  (listen 51 (pin_value interrupted) 102 fresh = Ok (tenths 10, 153%nat)) /\
  flagged (gate_status_confirm crossley) 2 /\
  read_gate 51 2 interrupted 0 =
    Ok ({| gate_status := 0;
           gate_status_tobeconfirmed := 2;
           gate_status_lastupdate := 0 |}, [[]; []]) /\
  read_gate 51 3 interrupted 0 =
    Ok (commit 2 (-1) 1013,
        [[]; []; ["Gate has an AC power or battery failure"%string]]).
Proof.
  repeat split; try reflexivity.
  exists 1. split; reflexivity.
Qed.

(** ** Notifying *)

Section Silence.

Variable c : tables.

(** Without a notification no reported status is taken up. *)
Lemma silent_away (status : Z) (os : list observation) :
  flagged (gate_status_report c) status ->
  forall (m1 m2 : monitor) (outs : list (list string)),
    run c os m1 = Ok (m2, outs) ->
    Forall (fun out => out = []) outs ->
    gate_status m1 <> status -> gate_status m2 <> status.
Proof.
  intros Hrep. induction os as [|[[led now] stamp] os' IH];
    intros m1 m2 outs Hrun Hsilent Hne.
  - injection Hrun as <- <-. assumption.
  - apply run_cons_inv in Hrun.
    destruct Hrun as (m1' & out & outs' & Hobs & Hrun & ->).
    inversion Hsilent as [|? ? Hout Hsilent']; subst.
    apply (IH m1' m2 outs' Hrun Hsilent').
    intros Heq. apply observe_inv in Hobs. destruct Hobs as (s & _ & Hup).
    destruct (update_commits c now stamp s m1 m1' [] Hup ltac:(congruence))
      as (_ & Hm1' & _ & first & report & _ & Hr & Hout & _).
    assert (s = status) as -> by (rewrite Hm1' in Heq; exact Heq).
    destruct Hrep as (flag & Hflag & Htrue).
    assert (report = flag) as -> by congruence.
    rewrite Htrue in Hout. discriminate.
Qed.

(** Without a notification, and back at the same reported status, the
    clock of the last notification has not moved. *)
Lemma silent_stays (os : list observation) :
  forall (m1 m2 : monitor) (outs : list (list string)),
    flagged (gate_status_report c) (gate_status m1) ->
    run c os m1 = Ok (m2, outs) ->
    Forall (fun out => out = []) outs ->
    gate_status m2 = gate_status m1 ->
    gate_status_lastupdate m2 = gate_status_lastupdate m1.
Proof.
  induction os as [|[[led now] stamp] os' IH];
    intros m1 m2 outs Hrep Hrun Hsilent Hsame.
  - injection Hrun as <- <-. reflexivity.
  - apply run_cons_inv in Hrun.
    destruct Hrun as (m1' & out & outs' & Hobs & Hrun & ->).
    inversion Hsilent as [|? ? Hout Hsilent']; subst.
    apply observe_inv in Hobs. destruct Hobs as (s & _ & Hup).
    destruct (Z.eq_dec (gate_status m1') (gate_status m1)) as [Heq | Hne].
    + rewrite <- (update_keeps c now stamp s m1 m1' [] Hup Heq eq_refl).
      apply (IH m1' m2 outs'); try assumption; congruence.
    + exfalso.
      apply (silent_away (gate_status m1) os' Hrep m1' m2 outs' Hrun Hsilent');
        assumption.
Qed.

End Silence.

(** C6. A pass that leaves the status as it is notifies only if the status
    is reported and the clock has reached the last notification plus the
    wait of the status; it then sends the repeat string and sets
    [gate_status_lastupdate] to the clock.  A pass that changes the status
    sets [gate_status_lastupdate] too and sends the first-occurrence string
    whenever the new status is reported, whatever the wait.  Hence, after
    a notification, the next one for a status that has stayed comes no
    sooner than the wait of that status after the clock of the former. *)
Theorem notify_policy (c : tables) (now stamp new_gate_status : Z)
  (m m' : monitor) (out : list string)
  (os : list observation) (m2 : monitor) (outs : list (list string))
  (led_on_count : float) (now3 stamp3 : Z) (m3 : monitor)
  (out3 : list string) :
  update c now stamp new_gate_status m = Ok (m', out) ->
  (gate_status m' = gate_status m ->
   (out <> [] ->
    new_gate_status = gate_status m /\
    flagged (gate_status_report c) new_gate_status /\
    exists wait again,
      index (gate_status_wait c) new_gate_status = Ok wait /\
      gate_status_lastupdate m + wait <= now /\
      index (gate_status_string_repeat c) new_gate_status = Ok again /\
      out = [again] /\
      m' = commit (gate_status m) (gate_status_tobeconfirmed m) stamp) /\
   (out = [] -> gate_status_lastupdate m' = gate_status_lastupdate m) /\
   (new_gate_status = gate_status m ->
    flagged (gate_status_report c) new_gate_status ->
    forall wait,
      index (gate_status_wait c) new_gate_status = Ok wait ->
      gate_status_lastupdate m + wait <= now -> out <> [])) /\
  (gate_status m' <> gate_status m ->
   gate_status m' = new_gate_status /\
   gate_status_lastupdate m' = stamp /\
   exists first report,
     index (gate_status_string c) new_gate_status = Ok first /\
     index (gate_status_report c) new_gate_status = Ok report /\
     out = (if truthy report then [first] else [])) /\
  (out <> [] ->
   run c os m' = Ok (m2, outs) ->
   Forall (fun out => out = []) outs ->
   gate_status m2 = gate_status m' ->
   observe c (led_on_count, now3, stamp3) m2 = Ok (m3, out3) ->
   gate_status m3 = gate_status m2 ->
   out3 <> [] ->
   exists wait,
     index (gate_status_wait c) (gate_status m') = Ok wait /\
     stamp + wait <= now3).
Proof.
  intros Hup. split; [|split].
  - intros Hsame. split; [|split].
    + intros Hout.
      destruct (update_repeats c now stamp new_gate_status m m' out
                  Hup Hsame Hout) as (Hnew & wait & again & Hw & Hle & Ha & ->).
      destruct (update_sends c now stamp new_gate_status m m' [again]
                  Hup Hout) as (Hrep & _ & _ & Hstamp).
      split; [assumption|]. split; [assumption|].
      exists wait, again. repeat split; try assumption.
      clear Hout Ha Hw Hle Hrep.
      update_cases Hup; simpl in *; congruence.
    + intros Hout. eapply update_keeps; eassumption.
    + intros Hnew (flag & Hflag & Htrue) wait Hw Hle.
      clear Hsame. update_cases Hup; try congruence.
      match goal with
      | Hw' : index (gate_status_wait c) _ = Ok ?w,
        H : (_ >=? _) = false |- _ =>
          assert (w = wait) by congruence; subst w;
          rewrite Z.geb_leb in H; apply Z.leb_gt in H
      end.
      lia.
  - intros Hch.
    destruct (update_commits c now stamp new_gate_status m m' out Hup Hch)
      as (_ & Hm' & _ & first & report & Hf & Hr & Hout & _).
    rewrite Hm'. simpl. repeat split.
    now exists first, report.
  - intros Hout Hrun Hsilent Hsame Hobs Hsame3 Hout3.
    apply observe_inv in Hobs. destruct Hobs as (s & _ & Hup3).
    destruct (update_repeats c now3 stamp3 s m2 m3 out3 Hup3 Hsame3 Hout3)
      as (Hs & wait & again & Hw & Hle & _ & _).
    destruct (update_sends c now3 stamp3 s m2 m3 out3 Hup3 Hout3)
      as (Hrep & _).
    destruct (update_sends c now stamp new_gate_status m m' out Hup Hout)
      as (_ & _ & _ & Hstamp).
    rewrite Hs, Hsame in Hw, Hrep.
    rewrite (silent_stays c os m' m2 outs Hrep Hrun Hsilent Hsame), Hstamp in Hle.
    now exists wait.
Qed.

(** [notify_policy] on main.py: the gate opens at time 11, is still open at
    time 100 and at time 400; the repeat notification goes out at the
    third of these passes only, 300 seconds being over. *)
Lemma notify_policy_open :
  (gate_status (commit 1 (-1) 11) = 1 /\
   gate_status_lastupdate (commit 1 (-1) 11) = 11 /\
   exists first report,
     index (gate_status_string crossley) 1 = Ok first /\
     index (gate_status_report crossley) 1 = Ok report /\
     ["Gate OPEN"%string] = (if truthy report then [first] else [])) /\
  (exists wait,
     index (gate_status_wait crossley) (gate_status (commit 1 (-1) 11)) = Ok wait /\
     11 + wait <= 400) /\
  (1 = gate_status (commit 1 (-1) 11) /\
   flagged (gate_status_report crossley) 1 /\
   exists wait again,
     index (gate_status_wait crossley) 1 = Ok wait /\
     gate_status_lastupdate (commit 1 (-1) 11) + wait <= 400 /\
     index (gate_status_string_repeat crossley) 1 = Ok again /\
     ["Gate still OPEN"%string] = [again] /\
     commit 1 (-1) 401 = commit 1 (-1) 401).
Proof.
  pose proof (notify_policy crossley 10 11 1 (boot 0) (commit 1 (-1) 11)
                ["Gate OPEN"%string]
                [(3%float, 100, 101)] (commit 1 (-1) 11) [[]]
                3%float 400 401 (commit 1 (-1) 401)
                ["Gate still OPEN"%string] eq_refl) as (_ & B & C).
  pose proof (notify_policy crossley 400 401 1 (commit 1 (-1) 11)
                (commit 1 (-1) 401) ["Gate still OPEN"%string]
                [] (commit 1 (-1) 401) [] 3%float 0 0 (commit 1 (-1) 401) []
                eq_refl) as (A & _ & _).
  split; [|split].
  - apply B. discriminate.
  - apply C; try reflexivity; try discriminate.
    repeat constructor.
  - apply A; [reflexivity | discriminate].
Defined.

(** * The whole loop *)

(** The passes of [read_gate] are a [run] over what its windows brought. *)
Lemma passes_run (c : tables) (fuel n : nat) (e : world) :
  forall (k i : nat) (m m' : monitor) (outs : list (list string)),
    passes c fuel n e k i m = Ok (m', outs) ->
    exists os,
      List.length os = n /\
      run c os m = Ok (m', outs) /\
      Forall (fun o => exists j j', listen fuel (pin_value e) j fresh = Ok (fst (fst o), j')) os.
Proof.
  induction n as [|n IH]; intros k i m m' outs H.
  - injection H as <- <-. exists []. repeat split. constructor.
  - simpl in H.
    destruct (listen fuel (pin_value e) i fresh) as [[led j]| |] eqn:El;
      simpl in H; try discriminate.
    destruct (classify c led) as [s| |] eqn:Ec; simpl in H; try discriminate.
    destruct (update c (time_now e k) (time_stamp e k) s m) as [[m1 out]| |] eqn:Eu;
      simpl in H; try discriminate.
    destruct (passes c fuel n e (S k) j m1) as [[m2 outs']| |] eqn:Ep;
      simpl in H; try discriminate.
    injection H as <- <-.
    destruct (IH _ _ _ _ _ Ep) as (os & Hlen & Hrun & Hall).
    exists ((led, time_now e k, time_stamp e k) :: os).
    split; [simpl; congruence|]. split.
    + simpl. rewrite Ec. simpl. rewrite Eu. simpl. now rewrite Hrun.
    + constructor; [|assumption]. simpl. now exists i, j.
Qed.

(** ** The length of a window *)

(** Before [window_ticks] passes are made the loop is still listening. *)
Lemma listening_before_window_ticks (pin : nat -> bool) (i n : nat) :
  (n < window_ticks)%nat -> listening (snd (advance n pin i fresh)) = true.
Proof.
  intros Hn.
  destruct (advance_reached pin n i) as (p & Hp & t & l & Hw & _ & Ht & Htp & _).
  rewrite Hw, tenths_listening by assumption.
  apply Nat.ltb_lt. lia.
Qed.

(** No window ends before the pin has been read [window_ticks] times: the
    sum of fifty tenths is still below [5]. *)
Theorem listen_takes_window_ticks (pin : nat -> bool) (i fuel : nat)
  (led_on_count : float) (j : nat) :
  listen fuel pin i fresh = Ok (led_on_count, j) ->
  (tenths 50 <? 5)%float = true /\ window_ticks = 51%nat /\
  (i + window_ticks <= j)%nat.
Proof.
  intros H. split; [reflexivity|]. split; [reflexivity|].
  rewrite listen_advance in H.
  destruct (advance fuel pin i fresh) as [j' w] eqn:E.
  destruct (listening w) eqn:Hlis; [discriminate|].
  injection H as <- <-.
  assert (Hout : listening (snd (advance fuel pin i fresh)) = false)
    by now rewrite E.
  destruct (first_exit pin i fuel Hout) as (n & Hn & Hex & Hbefore).
  pose proof (exit_index pin i n Hbefore) as Hj.
  replace fuel with (n + (fuel - n))%nat in E by lia.
  rewrite advance_exited in E by assumption.
  rewrite E in Hj. simpl in Hj. subst j'.
  destruct (Nat.lt_ge_cases n window_ticks) as [Hlt | Hge]; [|lia].
  rewrite (listening_before_window_ticks pin i n Hlt) in Hex. discriminate.
Qed.

(** [listen_takes_window_ticks] on an LED that stays dark. *)
Lemma listen_takes_window_ticks_dark :
  (tenths 50 <? 5)%float = true /\ window_ticks = 51%nat /\
  (0 + window_ticks <= 51)%nat.
Proof.
  apply (listen_takes_window_ticks dark 0 51 0%float 51). reflexivity.
Defined.

(** Fifteen lit reads, a second and a half by the count of reads, sum up
    to more than [1.5] and fall out of the band of the power failure. *)
Theorem fifteen_tenths_unmatched :
  listen 51 (fun i => (i <? 15)%nat) 0 fresh = Ok (tenths 15, 51%nat) /\
  (tenths 15 <=? 1.5)%float = false /\
  classify crossley (tenths 15) = Ok 0 /\
  classify crossley 1.5%float = Ok 2.
Proof. repeat split; reflexivity. Qed.

(** * Two windows for a confirmation *)

(** With the tables of main.py a change of status leaves nothing awaiting
    confirmation. *)
Lemma crossley_commit_clears (now stamp status : Z) (m m' : monitor)
  (out : list string) :
  update crossley now stamp status m = Ok (m', out) ->
  gate_status m' <> gate_status m ->
  gate_status_tobeconfirmed m' = -1.
Proof.
  intros Hup Hch.
  update_cases Hup;
    cbn [commit gate_status gate_status_tobeconfirmed] in *; try congruence.
  assert (Hun : unflagged (gate_status_confirm crossley) status)
    by (eexists; split; eassumption).
  apply crossley_unconfirmed in Hun.
  match goal with
  | Hr : index (gate_status_report crossley) _ = Ok ?r,
    Ht : truthy ?r = false |- _ =>
      destruct Hun as [-> | ->]; vm_compute in Hr; injection Hr as <-;
      discriminate Ht
  end.
Qed.

(** A pass that leaves the status as it is either saw it again, or puts
    what it saw up for confirmation. *)
Lemma update_same_status (c : tables) (now stamp status : Z) (m m' : monitor)
  (out : list string) :
  update c now stamp status m = Ok (m', out) ->
  gate_status m' = gate_status m ->
  (status = gate_status m /\
   gate_status_tobeconfirmed m' = gate_status_tobeconfirmed m) \/
  (status <> gate_status m /\ gate_status_tobeconfirmed m' = status).
Proof.
  intros Hup Hsame. update_cases Hup; simpl in *; try congruence.
  all: try (left; split; [assumption | reflexivity]).
  right. split; [assumption | reflexivity].
Qed.

(** What awaits confirmation was seen in an earlier window, and every
    window since was classified as the current status. *)
Lemma pending_history (os : list observation) :
  forall (m0 m : monitor) (outs : list (list string)),
    run crossley os m0 = Ok (m, outs) ->
    gate_status_tobeconfirmed m = -1 \/
    (gate_status_tobeconfirmed m = gate_status_tobeconfirmed m0 /\
     gate_status m = gate_status m0 /\
     Forall (fun o => classify crossley (fst (fst o)) = Ok (gate_status m0)) os) \/
    (exists os1 o os2,
       os = os1 ++ o :: os2 /\
       classify crossley (fst (fst o)) = Ok (gate_status_tobeconfirmed m) /\
       Forall (fun o' => classify crossley (fst (fst o')) = Ok (gate_status m)) os2).
Proof.
  induction os as [|[[led now] stamp] os' IH]; intros m0 m outs Hrun.
  - injection Hrun as <- <-. right. left. repeat split. constructor.
  - apply run_cons_inv in Hrun.
    destruct Hrun as (m1 & out & outs' & Hobs & Hrun & ->).
    apply observe_inv in Hobs. destruct Hobs as (s & Hs & Hup).
    destruct (IH m1 m outs' Hrun)
      as [Hnone | [(Hp & Hst & Hall) | (os1 & o & os2 & -> & Ho & Hall)]].
    + now left.
    + destruct (Z.eq_dec (gate_status m1) (gate_status m0)) as [Hsame | Hch].
      * destruct (update_same_status crossley now stamp s m0 m1 out Hup Hsame)
          as [[Hs0 Hp0] | [Hs0 Hp0]].
        -- right. left. repeat split; try congruence.
           constructor; [simpl; congruence|].
           rewrite <- Hsame. assumption.
        -- right. right. exists [], (led, now, stamp), os'.
           repeat split; [simpl; congruence|].
           rewrite Hst. assumption.
      * left. rewrite Hp.
        eapply crossley_commit_clears; eassumption.
    + right. right. exists ((led, now, stamp) :: os1), o, os2.
      now repeat split.
Qed.

(** With the tables of main.py a status that needs confirming becomes the
    status only in a pass that classifies its window as it, after an
    earlier window classified as it, every window in between having been
    classified as the status current until then. *)
Theorem confirmed_after_two_windows (os : list observation) (t0 : Z)
  (m : monitor) (outs : list (list string))
  (led_on_count : float) (now stamp : Z) (m' : monitor) (out : list string) :
  run crossley os (boot t0) = Ok (m, outs) ->
  observe crossley (led_on_count, now, stamp) m = Ok (m', out) ->
  gate_status m' <> gate_status m ->
  flagged (gate_status_confirm crossley) (gate_status m') ->
  classify crossley led_on_count = Ok (gate_status m') /\
  exists os1 o os2,
    os = os1 ++ o :: os2 /\
    classify crossley (fst (fst o)) = Ok (gate_status m') /\
    Forall (fun o' => classify crossley (fst (fst o')) = Ok (gate_status m)) os2.
Proof.
  intros Hrun Hobs Hch Hflag.
  apply observe_inv in Hobs. destruct Hobs as (s & Hs & Hup).
  destruct (update_commits crossley now stamp s m m' out Hup Hch)
    as (_ & Hm' & Hpend & _).
  assert (Hst : gate_status m' = s) by (rewrite Hm'; reflexivity).
  rewrite Hst in *. specialize (Hpend Hflag).
  destruct (classify_crossley led_on_count) as (s' & Hs' & Hrange).
  assert (s' = s) as -> by congruence.
  split; [assumption|].
  destruct (pending_history os (boot t0) m outs Hrun)
    as [Hnone | [(Hp & _) | H]].
  - lia.
  - simpl in Hp. lia.
  - rewrite Hpend in H. exact H.
Qed.

(** [confirmed_after_two_windows] on a power failure seen twice with a
    closed gate in between. *)
Lemma confirmed_after_two_windows_interrupted :
  classify crossley 1%float = Ok (gate_status (commit 2 (-1) 31)) /\
  exists os1 o os2,
    [(1%float, 10, 11); (0%float, 20, 21)] = os1 ++ o :: os2 /\
    classify crossley (fst (fst o)) = Ok (gate_status (commit 2 (-1) 31)) /\
    Forall (fun o' => classify crossley (fst (fst o')) =
                      Ok (gate_status (commit 0 2 0))) os2.
Proof.
  apply (confirmed_after_two_windows
           [(1%float, 10, 11); (0%float, 20, 21)] 0 (commit 0 2 0) [[]; []]
           1%float 30 31 (commit 2 (-1) 31)
           ["Gate has an AC power or battery failure"%string]).
  - reflexivity.
  - reflexivity.
  - discriminate.
  - exists 1. split; reflexivity.
Defined.

(** * More on listening *)

(** ** Windows that do not restart *)

Section Reads.

#[local] Open Scope nat_scope.

Variable pin : nat -> bool.
Variable i : nat.

Lemma lit_reads_S (n : nat) :
  lit_reads pin i (S n) = lit_reads pin i n + (if pin (i + n) then 1 else 0).
Proof.
  unfold lit_reads. rewrite seq_S, filter_app, length_app. simpl.
  now destruct (pin (i + n)).
Qed.

Lemma lit_reads_le (n : nat) : lit_reads pin i n <= n.
Proof.
  unfold lit_reads.
  rewrite <- (length_seq n i) at 2. apply filter_length_le.
Qed.

Lemma lit_reads_first (n : nat) :
  pin i = true -> 1 <= n -> 1 <= lit_reads pin i n.
Proof.
  intros Hi Hn. destruct n as [|n]; [lia|].
  unfold lit_reads. simpl. rewrite Hi. simpl. lia.
Qed.

(** [listen] after [n] passes. *)
Lemma listen_split (n fuel j : nat) (w : window) :
  listen (n + fuel) pin j w =
  (let '(j', w') := advance n pin j w in
   if listening w' then listen fuel pin j' w' else Ok (led_on_count w', j')).
Proof.
  revert j w. induction n as [|n IH]; intros j w.
  - simpl. destruct (listening w) eqn:E; [reflexivity|].
    destruct fuel; simpl; now rewrite E.
  - simpl. destruct (listening w) eqn:E.
    + apply IH.
    + now rewrite E.
Qed.

(** As long as no pass restarts, [time_count] counts the passes and
    [led_on_count] the lit reads. *)
Lemma advance_no_restart (n : nat) :
  n <= window_ticks ->
  (forall k, k < n -> restarts pin i k = false) ->
  advance n pin i fresh = (i + n, counted n (lit_reads pin i n)).
Proof.
  induction n as [|n IH]; intros Hn Hno.
  - simpl. now rewrite Nat.add_0_r.
  - rewrite advance_S.
    specialize (IH ltac:(lia) ltac:(intros; apply Hno; lia)).
    specialize (Hno n ltac:(lia)). unfold restarts in Hno.
    rewrite IH in Hno |- *.
    pose proof (lit_reads_le n) as Hle.
    rewrite tenths_listening in Hno |- * by lia.
    assert (Hlt : (n <? window_ticks) = true) by (apply Nat.ltb_lt; lia).
    rewrite Hlt in Hno |- *. simpl in Hno.
    rewrite tenths_restart in Hno by lia.
    rewrite tick_counted by lia.
    rewrite lit_reads_S, Nat.add_succ_r. unfold count.
    destruct (pin (i + n)); cbn [andb] in Hno.
    + rewrite Hno. cbn [fst snd]. do 2 f_equal. lia.
    + cbn [fst snd]. do 2 f_equal. lia.
Qed.

(** What [listen] returns when the first [window_ticks] passes do not
    restart. *)
Lemma listen_no_restart (fuel : nat) :
  (forall k, k < window_ticks -> restarts pin i k = false) ->
  window_ticks <= fuel ->
  listen fuel pin i fresh =
  Ok (tenths (lit_reads pin i window_ticks), i + window_ticks).
Proof.
  intros Hno Hfuel.
  replace fuel with (window_ticks + (fuel - window_ticks)) by lia.
  rewrite listen_split, (advance_no_restart window_ticks (le_n _) Hno).
  rewrite tenths_listening by apply le_n.
  now rewrite Nat.ltb_irrefl.
Qed.

(** A window whose first read finds the LED lit never restarts. *)
Lemma lit_first_no_restart (n : nat) :
  pin i = true -> n <= window_ticks ->
  forall k, k < n -> restarts pin i k = false.
Proof.
  intros Hi. induction n as [|n IH]; intros Hn k Hk; [lia|].
  specialize (IH ltac:(lia)).
  destruct (Nat.eq_dec k n) as [-> | Hne]; [|apply IH; lia].
  unfold restarts. rewrite (advance_no_restart n ltac:(lia) IH).
  pose proof (lit_reads_le n) as Hle.
  rewrite tenths_restart by lia.
  destruct n as [|n].
  - simpl. now rewrite andb_false_r.
  - pose proof (lit_reads_first (S n) Hi ltac:(lia)) as Hpos.
    destruct (lit_reads pin i (S n)) as [|l]; [lia|].
    simpl. now rewrite !andb_false_r.
Qed.

End Reads.

(** X3. A window none of whose first [window_ticks] passes restarts ends
    after exactly [window_ticks] reads of the pin, and its [led_on_count] is
    one tenth added per read that found the LED lit. *)
Theorem listen_counts_lit_reads (pin : nat -> bool) (i fuel : nat) :
  forallb (fun k => negb (restarts pin i k)) (seq 0 window_ticks) = true ->
  (window_ticks <= fuel)%nat ->
  listen fuel pin i fresh =
  Ok (tenths (lit_reads pin i window_ticks), (i + window_ticks)%nat).
Proof.
  intros Hno Hfuel. apply listen_no_restart; [|assumption].
  intros k Hk. rewrite forallb_forall in Hno.
  apply negb_true_iff, Hno, in_seq. lia.
Qed.

(** [listen_counts_lit_reads] on an LED lit during reads 3 to 9. *)
Lemma listen_counts_lit_reads_seven :
  listen 60 (fun k => (3 <=? k)%nat && (k <? 10)%nat) 3 fresh =
  Ok (tenths (lit_reads (fun k => (3 <=? k)%nat && (k <? 10)%nat) 3 window_ticks),
      (3 + window_ticks)%nat).
Proof.
  apply (listen_counts_lit_reads
           (fun k => (3 <=? k)%nat && (k <? 10)%nat) 3 60).
  - vm_compute. reflexivity.
  - unfold window_ticks. lia.
Defined.

(** X4. A window whose first read finds the LED lit never restarts,
    whatever the reads after it: it ends after [window_ticks] reads with
    one tenth per lit read. *)
Theorem listen_lit_first (pin : nat -> bool) (i fuel : nat) :
  pin i = true -> (window_ticks <= fuel)%nat ->
  (forall k, restarts pin i k = false) /\
  listen fuel pin i fresh =
  Ok (tenths (lit_reads pin i window_ticks), (i + window_ticks)%nat).
Proof.
  intros Hi Hfuel.
  assert (Hno : forall k, (k < window_ticks)%nat -> restarts pin i k = false)
    by (apply (lit_first_no_restart pin i window_ticks Hi (le_n _))).
  split; [|now apply listen_no_restart].
  intros k. destruct (Nat.lt_ge_cases k window_ticks) as [Hk | Hk];
    [now apply Hno|].
  unfold restarts.
  replace k with (window_ticks + (k - window_ticks))%nat by lia.
  pose proof (advance_no_restart pin i window_ticks (le_n _) Hno) as Hadv.
  rewrite advance_exited; rewrite Hadv; simpl; reflexivity.
Qed.

(** [listen_lit_first] on the blinking LED, from a read that finds it
    lit. *)
Lemma listen_lit_first_blink :
  (forall k, restarts blink 1 k = false) /\
  listen 51 blink 1 fresh =
  Ok (tenths (lit_reads blink 1 window_ticks), (1 + window_ticks)%nat).
Proof.
  apply (listen_lit_first blink 1 51).
  - reflexivity.
  - unfold window_ticks. lia.
Defined.

(** X5. A pass that restarts leaves the window as it was at the start:
    listening goes on as if it began at the next read. *)
Theorem restart_begins_anew (pin : nat -> bool) (i n fuel : nat) :
  restarts pin i n = true ->
  advance (S n) pin i fresh = (S (i + n), fresh) /\
  listen (S n + fuel) pin i fresh = listen fuel pin (S (i + n)) fresh.
Proof.
  intros Hre. unfold restarts in Hre.
  assert (Hadv : advance (S n) pin i fresh = (S (i + n)%nat, fresh)).
  { rewrite advance_S.
    destruct (advance_reached pin n i) as (p & _ & t & l & Hw & Hl & Ht & _).
    destruct (advance n pin i fresh) as [j w] eqn:E. cbn [snd] in Hw.
    apply andb_true_iff in Hre. destruct Hre as [Hre Hrestart].
    apply andb_true_iff in Hre. destruct Hre as [Hlis Hpin].
    rewrite Hlis, Hpin.
    assert (Hj : j = (i + n)%nat).
    { pose proof (advance_listening pin n i fresh) as H.
      rewrite E in H. now apply H. }
    subst j w. f_equal.
    rewrite tenths_listening in Hlis by assumption.
    apply Nat.ltb_lt in Hlis.
    rewrite tenths_restart in Hrestart by lia.
    rewrite tick_counted by lia. unfold count. rewrite Hrestart.
    apply andb_true_iff in Hrestart. destruct Hrestart as [_ Hz].
    apply Nat.eqb_eq in Hz. subst l. reflexivity. }
  split; [assumption|].
  rewrite listen_split, Hadv. reflexivity.
Qed.

(** [restart_begins_anew] on the blinking LED, whose second read
    restarts. *)
Lemma restart_begins_anew_blink :
  advance 2 blink 0 fresh = (2%nat, fresh) /\
  listen (2 + 7) blink 0 fresh = listen 7 blink 2 fresh.
Proof.
  apply (restart_begins_anew blink 0 1 7). reflexivity.
Defined.

(** ** The status of a window *)

Lemma status_table_holds : status_table = true.
Proof. vm_compute. reflexivity. Qed.

(** X6. Whatever the pin reads, a window that ends has counted some
    [k <= window_ticks] lit reads, and main.py classifies it by [k] alone:
    5 to 14 reads are a power failure, 20 and more an open gate, anything
    else, 1 to 4 and 15 to 19 included, a closed gate. *)
Theorem listen_classified (pin : nat -> bool) (i fuel : nat)
  (led_on_count : float) (j : nat) :
  listen fuel pin i fresh = Ok (led_on_count, j) ->
  exists k,
    (k <= window_ticks)%nat /\
    led_on_count = tenths k /\
    classify crossley led_on_count = Ok (status_of_reads k).
Proof.
  intros H. rewrite listen_advance in H.
  destruct (advance_reached pin fuel i) as (p & _ & t & l & Hw & Hl & Ht & _).
  destruct (advance fuel pin i fresh) as [j' w]. cbn [snd] in Hw.
  destruct (listening w); [discriminate|]. injection H as <- <-.
  exists l. subst w. split; [lia|]. split; [reflexivity|].
  pose proof status_table_holds as Htab. unfold status_table in Htab.
  rewrite forallb_forall in Htab.
  specialize (Htab l ltac:(apply in_seq; lia)). cbn [counted led_on_count].
  destruct (classify crossley (tenths l)) as [s| |]; try discriminate.
  apply Z.eqb_eq in Htab. now subst s.
Qed.

(** [listen_classified] on an LED lit for the first fifteen reads. *)
Lemma listen_classified_fifteen :
  exists k,
    (k <= window_ticks)%nat /\
    tenths 15 = tenths k /\
    classify crossley (tenths 15) = Ok (status_of_reads k).
Proof.
  apply (listen_classified (fun i => (i <? 15)%nat) 0 51 (tenths 15) 51).
  reflexivity.
Defined.

(** * More on the whole loop *)

(** ** A gate that stays closed, a gate that stays open *)

Lemma lit_reads_none (pin : nat -> bool) (i n : nat) :
  (forall k, pin k = false) -> lit_reads pin i n = 0%nat.
Proof.
  intros H. unfold lit_reads.
  rewrite (filter_ext pin (fun _ => false) H).
  induction (seq i n); simpl; auto.
Qed.

Lemma lit_reads_all (pin : nat -> bool) (i n : nat) :
  (forall k, pin k = true) -> lit_reads pin i n = n.
Proof.
  intros H. unfold lit_reads.
  rewrite (filter_ext pin (fun _ => true) H), forallb_filter_id.
  - apply length_seq.
  - apply forallb_forall. reflexivity.
Qed.

Lemma listen_never_lit (pin : nat -> bool) (i fuel : nat) :
  (forall k, pin k = false) -> (window_ticks <= fuel)%nat ->
  listen fuel pin i fresh = Ok (0%float, (i + window_ticks)%nat).
Proof.
  intros H Hfuel. rewrite listen_no_restart; try assumption.
  - now rewrite lit_reads_none.
  - intros k _. unfold restarts.
    destruct (advance k pin i fresh) as [j w].
    now rewrite H, andb_false_r.
Qed.

Lemma listen_always_lit (pin : nat -> bool) (i fuel : nat) :
  (forall k, pin k = true) -> (window_ticks <= fuel)%nat ->
  listen fuel pin i fresh = Ok (tenths window_ticks, (i + window_ticks)%nat).
Proof.
  intros H Hfuel. rewrite listen_no_restart; try assumption.
  - now rewrite lit_reads_all.
  - apply (lit_first_no_restart pin i window_ticks (H i) (le_n _)).
Qed.

Lemma passes_dark (fuel n : nat) (e : world) (t0 : Z) :
  (forall k, pin_value e k = false) -> (window_ticks <= fuel)%nat ->
  forall k i, passes crossley fuel n e k i (boot t0) = Ok (boot t0, repeat [] n).
Proof.
  intros Hdark Hfuel.
  induction n as [|n IH]; intros k i; [reflexivity|].
  cbn [passes]. rewrite (listen_never_lit _ i fuel Hdark Hfuel).
  cbn [bind].
  change (observe crossley (0%float, time_now e k, time_stamp e k) (boot t0))
    with (@Ok (monitor * list string) (boot t0, [])).
  cbn [bind]. rewrite IH. reflexivity.
Qed.

(** X7. While the LED stays dark, every window [read_gate] listens to,
    wherever it begins, ends after 51 reads with nothing counted, and
    [read_gate] sends nothing and stays in the state it started in, however
    many windows go by and whatever the clock. *)
Theorem read_gate_dark (fuel n : nat) (e : world) (t0 : Z) :
  (forall k, pin_value e k = false) -> (window_ticks <= fuel)%nat ->
  (forall i, listen fuel (pin_value e) i fresh = Ok (0%float, (i + 51)%nat)) /\
  (forall i, (i < 51)%nat -> listen i (pin_value e) 0 fresh = Fuel) /\
  read_gate fuel n e t0 = Ok (boot t0, repeat [] n).
Proof.
  intros Hdark Hfuel. split; [|split].
  - intros i. now apply listen_never_lit.
  - intros i Hi. rewrite listen_advance.
    pose proof (listening_before_window_ticks (pin_value e) 0 i Hi) as Hlis.
    destruct (advance i (pin_value e) 0 fresh) as [j w]. cbn [snd] in Hlis.
    now rewrite Hlis.
  - now apply passes_dark.
Qed.

(** [read_gate_dark] on a hundred windows. *)
Lemma read_gate_dark_hundred :
  (forall i, listen 51 dark i fresh = Ok (0%float, (i + 51)%nat)) /\
  (forall i, (i < 51)%nat -> listen i dark 0 fresh = Fuel) /\
  read_gate 51 100
    {| pin_value := dark; time_now := fun k => Z.of_nat k;
       time_stamp := fun k => Z.of_nat k |} 0 =
  Ok (boot 0, repeat [] 100).
Proof.
  apply (read_gate_dark 51 100
           {| pin_value := dark; time_now := fun k => Z.of_nat k;
              time_stamp := fun k => Z.of_nat k |} 0).
  - reflexivity.
  - unfold window_ticks. lia.
Defined.

Lemma update_still_open (now stamp : Z) (m : monitor) :
  gate_status m = 1 -> gate_status_tobeconfirmed m = -1 ->
  exists m' out,
    update crossley now stamp 1 m = Ok (m', out) /\
    gate_status m' = 1 /\ gate_status_tobeconfirmed m' = -1 /\
    (out = [] \/ out = ["Gate still OPEN"%string]).
Proof.
  intros Hs Hp. unfold update. rewrite Hs, Hp. simpl.
  destruct (now - (gate_status_lastupdate m + 300) >=? 0).
  - do 2 eexists. split; [reflexivity|]. simpl. auto.
  - do 2 eexists. split; [reflexivity|]. auto.
Qed.

Lemma passes_lit (fuel : nat) (e : world) :
  (forall k, pin_value e k = true) -> (window_ticks <= fuel)%nat ->
  forall (n k i : nat) (m : monitor),
    gate_status m = 1 -> gate_status_tobeconfirmed m = -1 ->
    exists m' outs,
      passes crossley fuel n e k i m = Ok (m', outs) /\
      gate_status m' = 1 /\ gate_status_tobeconfirmed m' = -1 /\
      List.length outs = n /\
      Forall (fun out => out = [] \/ out = ["Gate still OPEN"%string]) outs.
Proof.
  intros Hlit Hfuel. induction n as [|n IH]; intros k i m Hs Hp.
  - exists m, []. repeat split; try assumption. constructor.
  - cbn [passes]. rewrite (listen_always_lit _ i fuel Hlit Hfuel).
    cbn [bind]. unfold observe.
    change (classify crossley (tenths window_ticks)) with (@Ok Z 1).
    cbn [bind].
    destruct (update_still_open (time_now e k) (time_stamp e k) m Hs Hp)
      as (m1 & out & -> & Hs1 & Hp1 & Hout).
    cbn [bind].
    destruct (IH (S k) (i + window_ticks)%nat m1 Hs1 Hp1)
      as (m' & outs & -> & Hs' & Hp' & Hlen & Hall).
    cbn [bind]. exists m', (out :: outs).
    repeat split; try assumption.
    + simpl. now rewrite Hlen.
    + now constructor.
Qed.

(** X8. While the LED stays lit, [read_gate] takes the gate for open at
    the end of the first window and sends "Gate OPEN" there and then;
    every window after that leaves the status open with nothing awaiting
    confirmation and sends nothing or "Gate still OPEN". *)
Theorem read_gate_lit (fuel n : nat) (e : world) (t0 : Z) :
  (forall k, pin_value e k = true) -> (window_ticks <= fuel)%nat ->
  exists m outs,
    read_gate fuel (S n) e t0 = Ok (m, ["Gate OPEN"%string] :: outs) /\
    gate_status m = 1 /\ gate_status_tobeconfirmed m = -1 /\
    List.length outs = n /\
    Forall (fun out => out = [] \/ out = ["Gate still OPEN"%string]) outs.
Proof.
  intros Hlit Hfuel. unfold read_gate. cbn [passes].
  rewrite (listen_always_lit _ 0%nat fuel Hlit Hfuel). cbn [bind].
  change (observe crossley
            (tenths window_ticks, time_now e 0%nat, time_stamp e 0%nat) (boot t0))
    with (@Ok (monitor * list string)
            (commit 1 (-1) (time_stamp e 0%nat), ["Gate OPEN"%string])).
  cbn [bind].
  destruct (passes_lit fuel e Hlit Hfuel n 1%nat (0 + window_ticks)%nat
              (commit 1 (-1) (time_stamp e 0%nat)) eq_refl eq_refl)
    as (m' & outs & -> & Hs' & Hp' & Hlen & Hall).
  cbn [bind]. now exists m', outs.
Qed.

(** [read_gate_lit] on three windows, ten seconds apart. *)
Lemma read_gate_lit_three :
  exists m outs,
    read_gate 51 3
      {| pin_value := lit; time_now := fun k => 10 * Z.of_nat k;
         time_stamp := fun k => 10 * Z.of_nat k + 2 |} 0 =
    Ok (m, ["Gate OPEN"%string] :: outs) /\
    gate_status m = 1 /\ gate_status_tobeconfirmed m = -1 /\
    List.length outs = 2%nat /\
    Forall (fun out => out = [] \/ out = ["Gate still OPEN"%string]) outs.
Proof.
  apply (read_gate_lit 51 2).
  - reflexivity.
  - unfold window_ticks. lia.
Defined.

(** ** What is sent *)

Lemma update_crossley_message (now stamp status : Z) (m m' : monitor)
  (out : list string) :
  status = 0 \/ status = 1 \/ status = 2 ->
  update crossley now stamp status m = Ok (m', out) ->
  In out gate_messages.
Proof.
  intros [-> | [-> | ->]] H; unfold update in H;
    destruct (_ =? gate_status m); simpl in H;
    repeat match type of H with
           | context [if ?b then _ else _] => destruct b
           end;
    injection H as <- <-; simpl; tauto.
Qed.

(** X9. With the tables of main.py and from any state, every sequence of
    windows runs through without an [IndexError], and each window sends
    nothing or exactly one of "Gate OPEN", "Gate still OPEN" and "Gate has
    an AC power or battery failure": "Gate closed" is never sent. *)
Theorem run_messages (os : list observation) (m0 : monitor) :
  exists m outs,
    run crossley os m0 = Ok (m, outs) /\
    List.length outs = List.length os /\
    Forall (fun out => In out gate_messages) outs.
Proof.
  revert m0. induction os as [|[[led now] stamp] os IH]; intros m0.
  - exists m0, []. repeat split. constructor.
  - destruct (classify_crossley led) as (s & Hs & Hrange).
    destruct (update_crossley_total now stamp s m0 Hrange) as (m1 & out & Hup).
    destruct (IH m1) as (m & outs & Hrun & Hlen & Hall).
    exists m, (out :: outs). repeat split.
    + simpl. rewrite Hs. simpl. rewrite Hup. simpl. now rewrite Hrun.
    + simpl. now rewrite Hlen.
    + constructor; [|assumption].
      eapply update_crossley_message; eassumption.
Qed.

(** ** Statuses that never settle *)

(** X10. Whatever the tables: as long as every window is classified as a
    status that needs confirming, differs from the current status and
    differs from the status of the window before, nothing is ever
    confirmed; the status and the clock of the last notification stay as
    they are and nothing is sent. *)
Theorem unsettled_never_commits (c : tables) (os : list observation)
  (m m' : monitor) (outs : list (list string)) :
  unsettled c (gate_status m) (gate_status_tobeconfirmed m) os = true ->
  run c os m = Ok (m', outs) ->
  gate_status m' = gate_status m /\
  gate_status_lastupdate m' = gate_status_lastupdate m /\
  Forall (fun out => out = []) outs /\
  (os <> [] ->
   exists led_on_count now stamp,
     last os (0%float, 0, 0) = (led_on_count, now, stamp) /\
     classify c led_on_count = Ok (gate_status_tobeconfirmed m')).
Proof.
  revert m outs. induction os as [|[[led now] stamp] os IH];
    intros m outs Hun Hrun.
  - injection Hrun as <- <-. repeat split; [constructor | congruence].
  - apply run_cons_inv in Hrun.
    destruct Hrun as (m1 & out & outs' & Hobs & Hrun & ->).
    apply observe_inv in Hobs. destruct Hobs as (s & Hs & Hup).
    cbn [unsettled] in Hun. rewrite Hs in Hun.
    destruct (index (gate_status_confirm c) s) as [flag| |] eqn:Hflag;
      try (rewrite !andb_false_r in Hun; discriminate).
    rewrite !andb_true_iff in Hun.
    destruct Hun as [[[Hcur Hpend] Htrue] Hrest].
    apply negb_true_iff, Z.eqb_neq in Hcur, Hpend.
    assert (Hm1 : m1 = {| gate_status := gate_status m;
                          gate_status_tobeconfirmed := s;
                          gate_status_lastupdate := gate_status_lastupdate m |}
                  /\ out = []).
    { update_cases Hup; try congruence. now split. }
    destruct Hm1 as [-> ->].
    destruct (IH {| gate_status := gate_status m;
                    gate_status_tobeconfirmed := s;
                    gate_status_lastupdate := gate_status_lastupdate m |}
                outs' Hrest Hrun) as (H1 & H2 & H3 & H4).
    cbn [gate_status gate_status_lastupdate] in H1, H2.
    repeat split; try assumption; [now constructor|].
    intros _. destruct os as [|o os].
    + injection Hrun as <- <-. exists led, now, stamp. now split.
    + destruct (H4 ltac:(discriminate)) as (l' & n' & s' & Hlast & Hc).
      exists l', n', s'. split; [|assumption].
      exact Hlast.
Qed.

(** [unsettled_never_commits] on main.py: the gate open, and windows
    that look like a closed gate and a power failure in turn. *)
Lemma unsettled_never_commits_open :
  gate_status (commit 1 0 7) = gate_status (commit 1 (-1) 7) /\
  gate_status_lastupdate (commit 1 0 7) =
    gate_status_lastupdate (commit 1 (-1) 7) /\
  Forall (fun out : list string => out = []) [[]; []; []; []; []] /\
  ([(0%float, 10, 11); (1%float, 20, 21); (0%float, 30, 31); (1%float, 40, 41);
    (0%float, 50, 51)] <> (@nil observation) ->
   exists led_on_count now stamp,
     last [(0%float, 10, 11); (1%float, 20, 21); (0%float, 30, 31);
           (1%float, 40, 41); (0%float, 50, 51)] (0%float, 0, 0) =
       (led_on_count, now, stamp) /\
     classify crossley led_on_count =
       Ok (gate_status_tobeconfirmed (commit 1 0 7))).
Proof.
  apply (unsettled_never_commits crossley
           [(0%float, 10, 11); (1%float, 20, 21); (0%float, 30, 31);
            (1%float, 40, 41); (0%float, 50, 51)]
           (commit 1 (-1) 7) (commit 1 0 7) [[]; []; []; []; []]).
  - reflexivity.
  - reflexivity.
Defined.

(** * The other functions *)

(** ** Flashing the onboard LED *)

Lemma flashes_led_after (n : nat) (on : bool) :
  led_after on (flashes n) = match n with O => on | S _ => false end.
Proof.
  revert on. induction n as [|n IH]; intros on; [reflexivity|].
  change (led_after on (flashes (S n))) with (led_after false (flashes n)).
  rewrite IH. now destruct n.
Qed.

Lemma flashes_switched_on (n : nat) : switched_on (flashes n) = n.
Proof.
  induction n as [|n IH]; [reflexivity|].
  unfold switched_on in *. simpl. now rewrite IH.
Qed.

Lemma flashes_sleeps (n : nat) :
  sleeps (flashes n) = repeat 0.2%float (2 * n).
Proof.
  induction n as [|n IH]; [reflexivity|].
  replace (2 * S n)%nat with (S (S (2 * n))) by lia.
  simpl repeat. unfold sleeps in *. simpl. now rewrite IH.
Qed.

Lemma flashes_posts (n : nat) : posts (flashes n) = [].
Proof. induction n as [|n IH]; [reflexivity | exact IH]. Qed.

Lemma flashes_connects (n : nat) : connects (flashes n) = [].
Proof. induction n as [|n IH]; [reflexivity | exact IH]. Qed.

(** X11. [led_status_flash] switches the LED on as many times as it is
    asked to and leaves it off, whatever it was before; asked for no
    flashes, or a negative number of them, it does nothing.  Every flash
    sleeps twice, 0.2 seconds before the LED goes on and 0.2 seconds
    before it goes off. *)
Theorem led_status_flash_leaves_off (num_flashes : Z) (on : bool) :
  led_after on (led_status_flash num_flashes) =
    (if num_flashes <=? 0 then on else false) /\
  switched_on (led_status_flash num_flashes) = Z.to_nat num_flashes /\
  sleeps (led_status_flash num_flashes) =
    repeat 0.2%float (2 * Z.to_nat num_flashes) /\
  (num_flashes <= 0 -> led_status_flash num_flashes = []).
Proof.
  unfold led_status_flash.
  rewrite flashes_led_after, flashes_switched_on, flashes_sleeps.
  repeat split.
  - destruct (Z.leb_spec num_flashes 0) as [H | H].
    + now replace (Z.to_nat num_flashes) with 0%nat by lia.
    + destruct (Z.to_nat num_flashes) eqn:E; [lia | reflexivity].
  - intros H. now replace (Z.to_nat num_flashes) with 0%nat by lia.
Qed.

(** ** Connecting to the network *)

Section Wlan.

Variable isconnected : nat -> bool.

Lemma await_first (k d : nat) :
  isconnected k = true ->
  forall a fuel,
    (a + d = k)%nat ->
    (forall j, (a <= j < k)%nat -> isconnected j = false) ->
    (d <= fuel)%nat ->
    await fuel isconnected a = Ok (S k).
Proof.
  intros Hk. induction d as [|d IH]; intros a fuel Ha Hbefore Hfuel.
  - replace a with k by lia. destruct fuel; simpl; now rewrite Hk.
  - destruct fuel as [|fuel]; [lia|]. simpl.
    rewrite (Hbefore a) by lia.
    apply IH; [lia | intros; apply Hbefore; lia | lia].
Qed.

Lemma await_never (fuel a : nat) :
  (forall j, (a <= j <= a + fuel)%nat -> isconnected j = false) ->
  await fuel isconnected a = Fuel.
Proof.
  revert a. induction fuel as [|fuel IH]; intros a H; simpl.
  - now rewrite (H a) by lia.
  - rewrite (H a) by lia. apply IH. intros; apply H; lia.
Qed.

End Wlan.

(** X12. [connect_wifi] returns as soon as a poll of
    [wlan.isconnected()] succeeds, at poll [k], say.  If that is the first
    poll, nothing but [wlan.active(True)] has been done.  Otherwise
    [wlan.connect] has been called once, with the name and the password
    given, the LED has flashed six times and is left off.  Nothing is
    posted either way. *)
Theorem connect_wifi_returns (isconnected : nat -> bool) (k fuel : nat)
  (ifconfig ssid password : string) (on : bool) :
  isconnected k = true ->
  (forall j, (j < k)%nat -> isconnected j = false) ->
  (k <= fuel)%nat ->
  exists es,
    connect_wifi fuel isconnected ifconfig ssid password = Ok (es, S k) /\
    hd Close es = WlanActive true /\
    connects es = (if (k =? 0)%nat then [] else [(ssid, password)]) /\
    switched_on es = (if (k =? 0)%nat then 0 else 6)%nat /\
    led_after on es = (if (k =? 0)%nat then on else false) /\
    posts es = [].
Proof.
  intros Hk Hbefore Hfuel. unfold connect_wifi.
  destruct k as [|k].
  - rewrite Hk. simpl. eexists. split; [reflexivity|]. now repeat split.
  - rewrite (Hbefore 0%nat) by lia. simpl negb. cbv iota.
    rewrite (await_first isconnected (S k) k Hk 1%nat fuel)
      by (try lia; intros; apply Hbefore; lia).
    cbn [bind]. eexists. split; [reflexivity|]. now repeat split.
Qed.

(** [connect_wifi_returns] on a network that is up at the fourth poll. *)
Lemma connect_wifi_returns_fourth :
  exists es,
    connect_wifi 10 (fun j => (3 <=? j)%nat) "(ip)" "home" "secret" =
      Ok (es, 4%nat) /\
    hd Close es = WlanActive true /\
    connects es = [("home", "secret")]%string /\
    switched_on es = 6%nat /\
    led_after true es = false /\
    posts es = [].
Proof.
  apply (connect_wifi_returns (fun j => (3 <=? j)%nat) 3 10
           "(ip)" "home" "secret" true).
  - reflexivity.
  - intros j Hj. apply Nat.leb_gt. exact Hj.
  - lia.
Defined.

(** X13. [connect_wifi] has no time-out: while no poll of
    [wlan.isconnected()] succeeds it does not return. *)
Theorem connect_wifi_waits (isconnected : nat -> bool) (fuel : nat)
  (ifconfig ssid password : string) :
  (forall j, (j <= S fuel)%nat -> isconnected j = false) ->
  connect_wifi fuel isconnected ifconfig ssid password = Fuel.
Proof.
  intros H. unfold connect_wifi. rewrite (H 0%nat) by lia. simpl negb.
  cbv iota. rewrite await_never; [reflexivity|].
  intros j Hj. apply H. lia.
Qed.

(** [connect_wifi_waits] on a network that comes up too late. *)
Lemma connect_wifi_waits_late :
  connect_wifi 5 (fun j => (7 <=? j)%nat) "(ip)" "home" "secret" = Fuel.
Proof.
  apply connect_wifi_waits. intros j Hj. apply Nat.leb_gt. lia.
Defined.

(** ** The request of a notification *)

Lemma append_assoc (s1 s2 s3 : string) :
  ((s1 ++ s2) ++ s3 = s1 ++ (s2 ++ s3))%string.
Proof. induction s1 as [|a s1 IH]; simpl; [reflexivity | now rewrite IH]. Qed.

Lemma append_inv_head (p s1 s2 : string) :
  (p ++ s1 = p ++ s2)%string -> s1 = s2.
Proof.
  induction p as [|a p IH]; simpl; [trivial|].
  intros [= H]. now apply IH.
Qed.

Lemma list_ascii_of_string_append (s1 s2 : string) :
  list_ascii_of_string (s1 ++ s2) =
  (list_ascii_of_string s1 ++ list_ascii_of_string s2)%list.
Proof. induction s1 as [|a s1 IH]; simpl; [reflexivity | now rewrite IH]. Qed.

Lemma append_inv_tail (s1 s2 r : string) :
  (s1 ++ r = s2 ++ r)%string -> s1 = s2.
Proof.
  intros H. apply (f_equal list_ascii_of_string) in H.
  rewrite !list_ascii_of_string_append in H. apply app_inv_tail in H.
  apply (f_equal string_of_list_ascii) in H.
  now rewrite !string_of_list_ascii_of_string in H.
Qed.

Lemma length_append (s1 s2 : string) :
  String.length (s1 ++ s2) = (String.length s1 + String.length s2)%nat.
Proof. induction s1 as [|a s1 IH]; simpl; [reflexivity | now rewrite IH]. Qed.

(** The payload with the message in front of all the rest. *)
Lemma payload_message (message app_token user title sound : string) :
  payload message app_token user title sound =
  ("?message=" ++ (message ++
     ("&token=" ++ app_token ++ "&user=" ++ user ++ "&title=" ++ title
        ++ "&sound=" ++ sound)))%string.
Proof. unfold payload. now rewrite !append_assoc. Qed.

Lemma posts_notify (message url app_token user title sound : string) :
  posts (notify message url app_token user title sound) =
  [(url ++ payload message app_token user title sound)%string].
Proof. reflexivity. Qed.

(** X14. With the same address, token, user, title and sound, two
    messages that make [notify] post the same URL are the same message:
    the message can be read back from the request. *)
Theorem notify_message_recoverable
  (message1 message2 url app_token user title sound : string) :
  posts (notify message1 url app_token user title sound) =
  posts (notify message2 url app_token user title sound) ->
  message1 = message2.
Proof.
  rewrite !posts_notify. intros [= H].
  apply append_inv_head in H. rewrite !payload_message in H.
  apply append_inv_head in H. now apply append_inv_tail in H.
Qed.

(** [notify_message_recoverable] on a message of main.py. *)
Lemma notify_message_recoverable_open :
  "Gate OPEN"%string = "Gate OPEN"%string.
Proof.
  apply (notify_message_recoverable "Gate OPEN" "Gate OPEN" pushover_url
           "token" "user" "" "pushover").
  reflexivity.
Defined.

(** X15. [notify] puts its arguments into the URL as they are, with
    nothing escaped: a message that goes on with "&token=" and some text
    gives the very request of the shorter message with that text put in
    front of the token. *)
Theorem notify_escapes_nothing
  (message text url app_token user title sound : string) :
  posts (notify (message ++ "&token=" ++ text) url app_token user title sound) =
  posts (notify message url (text ++ "&token=" ++ app_token) user title sound) /\
  (message ++ "&token=" ++ text)%string <> message.
Proof.
  split.
  - rewrite !posts_notify. do 2 f_equal. unfold payload.
    now rewrite !append_assoc.
  - intros H. apply (f_equal String.length) in H.
    rewrite !length_append in H. simpl in H. lia.
Qed.
